(** * A shallow embedding of [models/detr_head.py] (DETR prediction head)

    Real-valued tensors are modelled over [R]: floating-point rounding is
    idealised as exact real arithmetic. *)

From Stdlib Require Import Reals Lra Lia String ZArith Bool List FunctionalExtensionality.
Import ListNotations.

(* ------------------------------------------------------------------ *)
(** ** Shared real-number helpers *)

Module RealOps.
Local Open Scope R_scope.

(** [rsum n f] is [f 0 + ... + f (n-1)]: the reduction [sum] along an axis. *)
Fixpoint rsum (n : nat) (f : nat -> R) : R :=
  match n with
  | O => 0
  | S k => rsum k f + f k
  end.

(** [F.relu] and [F.sigmoid] on one element. *)
Definition relu (x : R) : R := Rmax 0 x.
Definition sigmoid (x : R) : R := / (1 + exp (- x)).

End RealOps.

(* ------------------------------------------------------------------ *)
(** ** [MultiHeadAttentionMap]

    A tensor is a function from its indices to [R] (index [i] of an axis
    is meaningful for [i] below that axis's size).  Every [reshape],
    [flatten] and [transpose] of the source is written as the index map it
    performs on a contiguous row-major tensor.  The inputs are taken with
    the shapes [forward] expects: [q] is [bs x num_queries x query_dim],
    [k] is [bs x query_dim x h x w] and [mask] adds to [bs x num_queries x
    n x h x w]; the errors that [q_proj], [k_proj], the reshapes and
    [bmm] raise on other shapes are not modelled. *)

Module AttentionMap.
Import RealOps.
Local Open Scope R_scope.

Definition T3 := nat -> nat -> nat -> R.
Definition T4 := nat -> nat -> nat -> nat -> R.
Definition T5 := nat -> nat -> nat -> nat -> nat -> R.

(** The parameters of the module: [q_proj] is an [nn.Linear(query_dim,
    hidden_dim)] (weight [query_dim x hidden_dim], [y = x W + b]); [k_proj]
    a 1x1 [nn.Conv2D(query_dim, hidden_dim)] (weight [hidden_dim x
    query_dim]).  With [bias=False] the biases are the zero function. *)
Record MultiHeadAttentionMap := {
  query_dim : nat;
  hidden_dim : nat;
  num_heads : nat;
  q_w : nat -> nat -> R;
  q_b : nat -> R;
  k_w : nat -> nat -> R;
  k_b : nat -> R
}.

(** [float(hidden_dim / num_heads) ** -0.5] *)
Definition normalize_fact (m : MultiHeadAttentionMap) : R :=
  / sqrt (INR (hidden_dim m) / INR (num_heads m)).

Definition q_proj (m : MultiHeadAttentionMap) (q : T3) : T3 :=
  fun b qi d => rsum (query_dim m) (fun e => q b qi e * q_w m e d) + q_b m d.

Definition k_proj (m : MultiHeadAttentionMap) (k : T4) : T4 :=
  fun b d y x => rsum (query_dim m) (fun e => k_w m d e * k b e y x) + k_b m d.

(** Pre-softmax logits [weights] of [forward], after the optional
    [weights += mask], as a [bs x num_queries x n x h x w] tensor.
    [h] and [w] are [k.shape[-2]] and [k.shape[-1]]. *)
Definition attention_logits (m : MultiHeadAttentionMap) (w : nat)
    (q : T3) (k : T4) (mask : option T5) : T5 :=
  let q := q_proj m q in
  let k := k_proj m k in
  let n := num_heads m in
  let c := (hidden_dim m / n)%nat in
  (* qh = q.reshape([bs, num_queries, n, c]) *)
  let qh : T4 := fun b qi hd ci => q b qi (hd * c + ci)%nat in
  (* kh = k.reshape([bs, n, c, h, w]) *)
  let kh : T5 := fun b hd ci y x => k b (hd * c + ci)%nat y x in
  (* qh.transpose([0, 2, 1, 3]).reshape([-1, num_queries, c]) *)
  let qh' : T3 := fun bn qi ci => qh (bn / n)%nat qi (bn mod n)%nat ci in
  (* kh.reshape([-1, c, h * w]) *)
  let kh' : T3 := fun bn ci i =>
    kh (bn / n)%nat (bn mod n)%nat ci (i / w)%nat (i mod w)%nat in
  (* paddle.bmm(qh * self.normalize_fact, kh) *)
  let prod : T3 := fun bn qi i =>
    rsum c (fun ci => qh' bn qi ci * normalize_fact m * kh' bn ci i) in
  (* .reshape([bs, n, num_queries, h, w]) *)
  let r : T5 := fun b hd qi y x => prod (b * n + hd)%nat qi (y * w + x)%nat in
  (* .transpose([0, 2, 1, 3, 4]) *)
  let weights : T5 := fun b qi hd y x => r b hd qi y x in
  match mask with
  | None => weights
  | Some mk => fun b qi hd y x => weights b qi hd y x + mk b qi hd y x
  end.

(** [F.softmax(weights.flatten(3), axis=-1).reshape(weights.shape)]: the
    softmax runs along the flattened [h*w] axis. *)
Definition softmax_flat_spatial (h w : nat) (weights : T5) : T5 :=
  let flat : T4 := fun b qi hd i => weights b qi hd (i / w)%nat (i mod w)%nat in
  let sm : T4 := fun b qi hd i =>
    exp (flat b qi hd i) / rsum (h * w) (fun j => exp (flat b qi hd j)) in
  fun b qi hd y x => sm b qi hd (y * w + x)%nat.

(** [__init__] computes [float(hidden_dim / self.num_heads) ** -0.5],
    which raises [ZeroDivisionError] when [num_heads = 0] or
    [hidden_dim = 0] ([0.0 ** -0.5]): no such map is ever built. *)
Definition init_ok (m : MultiHeadAttentionMap) : bool :=
  Nat.ltb 0 (num_heads m) && Nat.ltb 0 (hidden_dim m).

(** The checks of [forward] itself: [num_heads > 0] ([hidden_dim //
    num_heads]) and [n * c = hidden_dim] (the reshapes into heads). *)
Definition reshape_ok (m : MultiHeadAttentionMap) : bool :=
  Nat.ltb 0 (num_heads m) &&
  Nat.eqb (num_heads m * (hidden_dim m / num_heads m)) (hidden_dim m).

(** The weights [forward] holds just before [self.dropout]. *)
Definition weights_pre_dropout (m : MultiHeadAttentionMap) (h w : nat)
    (q : T3) (k : T4) (mask : option T5) : option T5 :=
  if reshape_ok m
  then Some (softmax_flat_spatial h w (attention_logits m w q k mask))
  else None.

(** [MultiHeadAttentionMap(...)] followed by [forward(q, k, mask)]:
    [dropout] is [self.dropout] (the identity in eval mode). *)
Definition forward (m : MultiHeadAttentionMap) (dropout : T5 -> T5)
    (h w : nat) (q : T3) (k : T4) (mask : option T5) : option T5 :=
  if init_ok m then option_map dropout (weights_pre_dropout m h w q k mask)
  else None.

(** A map for concrete runs: one input feature, two heads of size 1. *)
Definition example_map : MultiHeadAttentionMap :=
  {| query_dim := 1; hidden_dim := 2; num_heads := 2;
     q_w := fun _ _ => 1; q_b := fun _ => 0; k_w := fun _ _ => 1; k_b := fun _ => 0 |}.

End AttentionMap.


(* ------------------------------------------------------------------ *)
(** ** [MaskHeadFPNConv]

    The layers are modelled by their hyper-parameters and the forward pass
    by its effect on tensor shapes ([None] is a raised error: a channel
    mismatch in a convolution, a shape mismatch in [concat] or [+], an
    [IndexError], a group count that [GroupNorm] refuses).  Group norm
    and ReLU keep the shape.  The first fusion
    step is also modelled on values along the batch axis ([fuse]). *)

Module MaskHead.

Local Notation "x <- m ;; k" :=
  (match m with Some x => k | None => None end)
  (at level 61, m at next level, right associativity).

(** [nn.Conv2D(in_channels, out_channels, kernel_size, padding=...)] *)
Record Conv2D := { cin : nat; cout : nat; ksize : nat; padding : nat }.

(** [_make_layers]: conv (padding [kernel_size // 2]), GroupNorm, ReLU. *)
Record ConvBlock := { blk_conv : Conv2D; blk_groups : nat }.

Record MaskHeadFPNConv := {
  conv0 : ConvBlock;
  conv_inter : list ConvBlock;
  conv_out : Conv2D;
  adapter : list Conv2D
}.

Definition make_layers (in_dims out_dims kernel_size num_groups : nat)
  : ConvBlock :=
  {| blk_conv := {| cin := in_dims; cout := out_dims; ksize := kernel_size;
                    padding := kernel_size / 2 |};
     blk_groups := num_groups |}.

(** [inter_dims = [input_dim] + [context_dim // (2**i) for i in range(1, 5)]] *)
Definition inter_dims (input_dim context_dim : nat) : list nat :=
  input_dim :: map (fun i => context_dim / 2 ^ i) [1; 2; 3; 4].

(** [inter_dims[-1]] (the list is never empty). *)
Definition last_dim (l : list nat) : nat := last l 0.

(** [for i in range(len(fpn_dims)): ... inter_dims[i + 1] ...]; an index
    past the end of [inter_dims] raises [IndexError] ([None]). *)
Fixpoint make_adapters (idims : list nat) (i : nat) (fpn_dims : list nat)
  : option (list Conv2D) :=
  match fpn_dims with
  | [] => Some []
  | d :: ds =>
      o <- nth_error idims (S i) ;;
      rest <- make_adapters idims (S i) ds ;;
      Some ({| cin := d; cout := o; ksize := 1; padding := 0 |} :: rest)
  end.

(** [MaskHeadFPNConv.__init__(input_dim, fpn_dims, context_dim, num_groups)] *)
Definition init (input_dim : nat) (fpn_dims : list nat) (context_dim : nat)
    (num_groups : nat) : option MaskHeadFPNConv :=
  let idims := inter_dims input_dim context_dim in
  let c0 := make_layers input_dim input_dim 3 num_groups in
  let ci := map (fun '(i, o) => make_layers i o 3 num_groups)
                (combine (removelast idims) (tl idims)) in
  let co := {| cin := last_dim idims; cout := 1; ksize := 3; padding := 1 |} in
  ad <- make_adapters idims 0 fpn_dims ;;
  Some {| conv0 := c0; conv_inter := ci; conv_out := co; adapter := ad |}.

(** Shapes [N, C, H, W] and, for the attention map, [B, Q, heads, H, W]. *)
Record shape4 := mk4 { n4 : nat; c4 : nat; h4 : nat; w4 : nat }.
Record shape5 := mk5 { b5 : nat; q5 : nat; e5 : nat; h5 : nat; w5 : nat }.

Definition shape4_eqb (s t : shape4) : bool :=
  Nat.eqb (n4 s) (n4 t) && Nat.eqb (c4 s) (c4 t) &&
  Nat.eqb (h4 s) (h4 t) && Nat.eqb (w4 s) (w4 t).

Definition conv2d (cv : Conv2D) (s : shape4) : option shape4 :=
  if Nat.eqb (c4 s) (cin cv) then
    Some (mk4 (n4 s) (cout cv)
              (h4 s + 2 * padding cv + 1 - ksize cv)
              (w4 s + 2 * padding cv + 1 - ksize cv))
  else None.

(** [nn.GroupNorm(num_groups, C)] on an [N x C x H x W] tensor: Paddle's
    [group_norm] raises unless [1 <= num_groups <= C] and [num_groups]
    divides [C]; the shape is kept. *)
Definition group_norm_ok (groups channels : nat) : bool :=
  Nat.ltb 0 groups && Nat.leb groups channels && Nat.eqb (channels mod groups) 0.

Definition group_norm (groups : nat) (s : shape4) : option shape4 :=
  if group_norm_ok groups (c4 s) then Some s else None.

(** A block of [_make_layers]: the conv, [GroupNorm(num_groups, out_dims)]
    on its output, then ReLU (which keeps the shape). *)
Definition block (b : ConvBlock) (s : shape4) : option shape4 :=
  y <- conv2d (blk_conv b) s ;;
  group_norm (blk_groups b) y.

(** [t.tile([reps, 1, 1, 1])] *)
Definition tile_shape (reps : nat) (s : shape4) : shape4 :=
  mk4 (n4 s * reps) (c4 s) (h4 s) (w4 s).

(** [bbox_attention_map.flatten(0, 1)] *)
Definition flatten01_shape (a : shape5) : shape4 :=
  mk4 (b5 a * q5 a) (e5 a) (h5 a) (w5 a).

(** [paddle.concat([s, t], 1)] *)
Definition concat1_shape (s t : shape4) : option shape4 :=
  if Nat.eqb (n4 s) (n4 t) && Nat.eqb (h4 s) (h4 t) && Nat.eqb (w4 s) (w4 t)
  then Some (mk4 (n4 s) (c4 s + c4 t) (h4 s) (w4 s)) else None.

(** [F.interpolate(x, size=feat.shape[-2:])] *)
Definition interpolate_shape (x feat : shape4) : shape4 :=
  mk4 (n4 x) (c4 x) (h4 feat) (w4 feat).

(** [feat + x] on equal shapes. *)
Definition add_shape (s t : shape4) : option shape4 :=
  if shape4_eqb s t then Some s else None.

(** Python's [zip] of three lists: as long as the shortest. *)
Fixpoint zip3 {A B C} (xs : list A) (ys : list B) (zs : list C)
  : list (A * B * C) :=
  match xs, ys, zs with
  | x :: xs, y :: ys, z :: zs => (x, y, z) :: zip3 xs ys zs
  | _, _, _ => []
  end.

(** [l[-1]], raising [IndexError] on an empty list. *)
Fixpoint last_opt {A} (l : list A) : option A :=
  match l with
  | [] => None
  | [a] => Some a
  | _ :: l => last_opt l
  end.

(** One iteration of the FPN loop of [forward]. *)
Definition fpn_step (nq : nat) (x : shape4)
    (lay : ConvBlock * Conv2D * shape4) : option shape4 :=
  let '(inter_layer, adapter_layer, feat) := lay in
  f <- conv2d adapter_layer feat ;;
  let feat := tile_shape nq f in
  x <- block inter_layer x ;;
  add_shape feat (interpolate_shape x feat).

Fixpoint fold_steps (nq : nat) (x : shape4)
    (l : list (ConvBlock * Conv2D * shape4)) : option shape4 :=
  match l with
  | [] => Some x
  | s :: l => y <- fpn_step nq x s ;; fold_steps nq y l
  end.

(** [MaskHeadFPNConv.forward(x, bbox_attention_map, fpns)] on shapes. *)
Definition forward_shape (mh : MaskHeadFPNConv) (x : shape4) (attn : shape5)
    (fpns : list shape4) : option shape4 :=
  let nq := q5 attn in
  x <- concat1_shape (tile_shape nq x) (flatten01_shape attn) ;;
  x <- block (conv0 mh) x ;;
  x <- fold_steps nq x (zip3 (removelast (conv_inter mh)) (adapter mh) fpns) ;;
  lst <- last_opt (conv_inter mh) ;;
  x <- block lst x ;;
  conv2d (conv_out mh) x.

(** The first fusion step on values.  A batch is a list along axis 0; an
    image is the list of its channel planes (planes of one [H x W]).
    [x] is [B x C] planes, the attention map [B x Q x heads] planes. *)
Section Fusion.
Context {P : Type}.

(** [t.tile([reps, 1, 1, 1])]: the whole batch repeated [reps] times. *)
Definition tile0 {A} (reps : nat) (t : list A) : list A := concat (repeat t reps).

(** [paddle.concat([s, t], 1)]: channel lists joined image by image. *)
Definition concat_channels (s t : list (list P)) : option (list (list P)) :=
  if Nat.eqb (length s) (length t)
  then Some (map (fun '(a, b) => a ++ b) (combine s t)) else None.

(** [bbox_attention_map.shape[1]] *)
Definition num_queries (attn : list (list (list P))) : nat :=
  match attn with [] => 0 | a :: _ => length a end.

Definition fuse (x : list (list P)) (attn : list (list (list P)))
  : option (list (list P)) :=
  concat_channels (tile0 (num_queries attn) x) (concat attn).

End Fusion.

End MaskHead.

(* ------------------------------------------------------------------ *)
(** ** Python exceptions and the [Linear] layer *)

Module Py.

(** The exceptions the modelled code can raise. *)
Inductive exn :=
| AssertionError
| KeyError (key : string)
| IndexError
| ShapeError.

(** A computation that returns a value or raises. *)
Definition res (A : Type) : Type := (exn + A)%type.

Definition res_bind {A B} (m : res A) (k : A -> res B) : res B :=
  match m with inl e => inl e | inr a => k a end.

Fixpoint mapM {A B} (f : A -> res B) (l : list A) : res (list B) :=
  match l with
  | [] => inr []
  | a :: l => res_bind (f a) (fun b => res_bind (mapM f l) (fun bs => inr (b :: bs)))
  end.

(** [t[-1]] *)
Fixpoint last_item {A} (l : list A) : res A :=
  match l with
  | [] => inl IndexError
  | [a] => inr a
  | _ :: l => last_item l
  end.

(** [key in d] and [d[key]] for a dict with string keys. *)
Definition dict (V : Type) := list (string * V).

Definition dict_mem {V} (k : string) (d : dict V) : bool :=
  existsb (fun '(k', _) => String.eqb k k') d.

Fixpoint getitem {V} (d : dict V) (k : string) : res V :=
  match d with
  | [] => inl (KeyError k)
  | (k', v) :: d => if String.eqb k k' then inr v else getitem d k
  end.

End Py.

Module Layers.
Import Py RealOps.
Local Open Scope R_scope.

(** [nn.Linear(in_features, out_features)]: weight [in x out] as a list of
    [in] rows, bias of [out] entries; [y = x W + b]. *)
Record Linear := { lin_w : list (list R); lin_b : list R }.

Fixpoint vadd (u v : list R) : list R :=
  match u, v with
  | a :: u, b :: v => (a + b) :: vadd u v
  | _, _ => []
  end.

(** [layer(x)] on the last axis; raises on a feature-size mismatch. *)
Definition linear_apply (l : Linear) (x : list R) : res (list R) :=
  if Nat.eqb (length x) (length (lin_w l))
  then inr (fold_right (fun '(xi, row) acc => vadd (map (Rmult xi) row) acc)
                       (lin_b l) (combine x (lin_w l)))
  else inl ShapeError.

(** A linear layer built by [nn.Linear(n, k)]. *)
Definition linear_dims (l : Linear) (nk : nat * nat) : Prop :=
  length (lin_w l) = fst nk /\ Forall (fun r => length r = snd nk) (lin_w l) /\
  length (lin_b l) = snd nk.

(** [MLP]: [self.num_layers] and [self.layers]. *)
Record MLP := { num_layers : Z; layers : list Linear }.

(** The [(in, out)] sizes [__init__] gives to its layers:
    [h = [hidden_dim] * (num_layers - 1)],
    [zip([input_dim] + h, h + [output_dim])]. *)
Definition mlp_dims (input_dim hidden_dim output_dim : nat) (num_layers : Z)
  : list (nat * nat) :=
  let h := repeat hidden_dim (Z.to_nat (num_layers - 1)) in
  combine (input_dim :: h) (h ++ [output_dim]).

(** The loop of [MLP.forward] from index [i]. *)
Fixpoint mlp_go (nl i : Z) (ls : list Linear) (x : list R) : res (list R) :=
  match ls with
  | [] => inr x
  | l :: ls =>
      res_bind (linear_apply l x) (fun y =>
        mlp_go nl (i + 1) ls (if Z.ltb i (nl - 1) then map relu y else y))
  end%Z.

Definition mlp_forward (m : MLP) (x : list R) : res (list R) :=
  mlp_go (num_layers m) 0 (layers m) x.

(** A list of [(in, out)] sizes that chains from input size [n]. *)
Fixpoint dims_chain (n : nat) (dims : list (nat * nat)) : Prop :=
  match dims with
  | [] => True
  | (a, b) :: ds => a = n /\ dims_chain b ds
  end.

Fixpoint dims_out (n : nat) (dims : list (nat * nat)) : nat :=
  match dims with
  | [] => n
  | (_, b) :: ds => dims_out b ds
  end.

(** The successive values of [x] in the loop of [MLP.forward]: the
    activation after each layer. *)
Fixpoint mlp_trace (nl i : Z) (ls : list Linear) (x : list R)
  : res (list (list R)) :=
  match ls with
  | [] => inr []
  | l :: ls =>
      res_bind (linear_apply l x) (fun y =>
        let y' := if Z.ltb i (nl - 1) then map relu y else y in
        res_bind (mlp_trace nl (i + 1) ls y') (fun t => inr (y' :: t)))
  end%Z.

End Layers.

(* ------------------------------------------------------------------ *)
(** ** [DETRHead.forward]

    A run of [forward] is modelled as the list of tensor computations it
    starts (in order) together with its outcome: a value or a raised
    exception.  The score head and the box head are modelled on values
    (a [Linear] and an [MLP] on the last axis of the [L x B x Q x D]
    query features); the attention map, the mask head, the reshape of its
    output, the polygon rasterisation and the loss are parameters
    (arbitrary functions that may raise), as the head only forwards values
    between them. *)

Module DetrHead.
Import Py RealOps Layers.
Local Open Scope string_scope.

Definition T3 := list (list (list R)).
Definition T4 := list T3.

(** The tensor computations [forward] starts. *)
Inductive event :=
| EScoreHead | EBboxHead | EBboxAttention | EMaskHead | EReshape | EGtMask | ELoss.

Definition M (A : Type) : Type := (list event * res A)%type.

Definition ret {A} (a : A) : M A := ([], inr a).
Definition raise {A} (e : exn) : M A := ([], inl e).
Definition lift {A} (r : res A) : M A := ([], r).
Definition run {A} (ev : event) (r : res A) : M A := ([ev], r).

Definition bind {A B} (m : M A) (k : A -> M B) : M B :=
  match m with
  | (l, inl e) => (l, inl e)
  | (l, inr a) => let (l', r) := k a in (app l l', r)
  end.

Local Notation "x <- m ;; k" := (bind m (fun x => k))
  (at level 61, m at next level, right associativity).

(** A layer applied to the last axis of an [L x B x Q x D] tensor. *)
Definition apply_last (f : list R -> res (list R)) (t : T4) : res T4 :=
  mapM (mapM (mapM f)) t.

Definition map4 (g : R -> R) (t : T4) : T4 := map (map (map (map g))) t.

(** [feats.shape[1]] and [feats.shape[2]] *)
Definition shape1 (t : T4) : nat :=
  match t with l0 :: _ => length l0 | [] => 0 end.
Definition shape2 (t : T4) : nat :=
  match t with (b0 :: _) :: _ => length b0 | _ => 0 end.

(** [t] is a dense [L x B x Q x D] tensor for some [L]. *)
Definition is_tensor4 (t : T4) (B Q D : nat) : Prop :=
  Forall (fun layer =>
    Forall (fun bq => Forall (fun v => length v = D) bq /\ length bq = Q) layer /\
    length layer = B) t.

(** Two runs raise the same exception, or both return. *)
Definition agree {X Y} (r1 : res X) (r2 : res Y) : Prop :=
  match r1, r2 with
  | inl e1, inl e2 => e1 = e2
  | inr _, inr _ => True
  | _, _ => False
  end.

(** [g] agrees with itself on all inputs satisfying [P]. *)
Definition uniform_on {A X} (g : A -> res X) (P : A -> Prop) : Prop :=
  forall a1 a2, P a1 -> P a2 -> agree (g a1) (g a2).

(** The state of a [DETRHead]: its sub-layers, its flags and the
    ambient [self.training]. *)
Record DETRHead := {
  num_classes : nat;
  hidden_dim : nat;
  score_head : Linear;
  bbox_head : MLP;
  with_mask_head : bool;
  use_focal_loss : bool;
  training : bool
}.

Section Forward.
Context {Mem Proj Mask Feat Attn Seg GtVal GtMask LossOut : Type}.

(** [self.bbox_attention], [self.mask_head], the last two sizes of the
    mask head's output, [Tensor.reshape], [get_gt_mask_from_polygons] and
    [self.loss]. *)
Variable bbox_attention : T3 -> Mem -> Mask -> res Attn.
Variable mask_head : Proj -> Attn -> list Feat -> res Seg.
Variable seg_hw : Seg -> nat * nat.
Variable seg_reshape : Seg -> list nat -> res Seg.
Variable get_gt_mask_from_polygons : GtVal -> GtVal -> res GtMask.
Variable loss : T4 -> T4 -> GtVal -> GtVal -> option Seg -> option GtMask -> res LossOut.

Inductive output :=
| LossValue (l : LossOut)
| Predictions (boxes logits : T3) (masks : option Seg).

(** Lines 213-225 of [forward]: the outputs of every decoder layer and,
    when enabled, the masks. *)
Definition head_outputs (h : DETRHead) (feats : T4) (memory : Mem)
    (src_proj : Proj) (src_mask : Mask) (body_feats : list Feat)
  : M (T4 * T4 * option Seg) :=
  outputs_logit <- run EScoreHead (apply_last (linear_apply (score_head h)) feats) ;;
  raw_bbox <- run EBboxHead (apply_last (mlp_forward (bbox_head h)) feats) ;;
  let outputs_bbox := map4 sigmoid raw_bbox in
  outputs_seg <-
    (if with_mask_head h then
       q <- lift (last_item feats) ;;
       am <- run EBboxAttention (bbox_attention q memory src_mask) ;;
       (* fpn_feats = [a for a in body_feats[::-1]][1:] *)
       seg <- run EMaskHead (mask_head src_proj am (tl (rev body_feats))) ;;
       seg <- run EReshape (seg_reshape seg
                [shape1 feats; shape2 feats; fst (seg_hw seg); snd (seg_hw seg)]) ;;
       ret (Some seg)
     else ret None) ;;
  ret (outputs_logit, outputs_bbox, outputs_seg).

(** [DETRHead.forward(out_transformer, body_feats, inputs)]. *)
Definition forward (h : DETRHead) (out_transformer : T4 * Mem * Proj * Mask)
    (body_feats : list Feat) (inputs : option (dict GtVal)) : M output :=
  let '(feats, memory, src_proj, src_mask) := out_transformer in
  outs <- head_outputs h feats memory src_proj src_mask body_feats ;;
  let '(outputs_logit, outputs_bbox, outputs_seg) := outs in
  if training h then
    match inputs with
    | None => raise AssertionError                 (* assert inputs is not None *)
    | Some d =>
        if dict_mem "gt_bbox" d && dict_mem "gt_class" d then
          gt_mask <-
            (if dict_mem "gt_poly" d then
               p <- lift (getitem d "gt_poly") ;;
               pm <- lift (getitem d "pad_mask") ;;
               g <- run EGtMask (get_gt_mask_from_polygons p pm) ;;
               ret (Some g)
             else ret None) ;;
          gb <- lift (getitem d "gt_bbox") ;;
          gc <- lift (getitem d "gt_class") ;;
          l <- run ELoss (loss outputs_bbox outputs_logit gb gc outputs_seg gt_mask) ;;
          ret (LossValue l)
        else raise AssertionError
    end
  else
    b <- lift (last_item outputs_bbox) ;;
    lg <- lift (last_item outputs_logit) ;;
    ret (Predictions b lg outputs_seg).

End Forward.

(** A small head for concrete runs: one class plus background, hidden
    size 1, a one-layer box MLP. *)
Definition example_head (training : bool) (with_mask : bool) : DETRHead :=
  {| num_classes := 2; hidden_dim := 1;
     score_head := {| lin_w := [[1; 0]%R]; lin_b := [0; 0]%R |};
     bbox_head := {| num_layers := 1%Z;
                     layers := [{| lin_w := [[1; 1; 1; 1]%R];
                                   lin_b := [0; 0; 0; 0]%R |}] |};
     with_mask_head := with_mask; use_focal_loss := false; training := training |}.

(** [DETRHead.__init__(num_classes, hidden_dim, nhead, num_mlp_layers, ...,
    with_mask_head, use_focal_loss)] on the score and box heads: the
    stored flags and class count, and the sizes of the layers it creates
    (their weights are initialised at random, so any weights of these
    sizes). *)
Definition built_by (h : DETRHead) (num_classes_arg hidden : nat)
    (num_mlp_layers : Z) (with_mask use_focal : bool) : Prop :=
  num_classes h = (if use_focal then num_classes_arg else num_classes_arg + 1)%nat /\
  hidden_dim h = hidden /\
  with_mask_head h = with_mask /\
  use_focal_loss h = use_focal /\
  linear_dims (score_head h) (hidden, num_classes h) /\
  num_layers (bbox_head h) = num_mlp_layers /\
  Forall2 linear_dims (layers (bbox_head h)) (mlp_dims hidden hidden 4 num_mlp_layers).

End DetrHead.

(* ------------------------------------------------------------------ *)
(** ** [DETRHead.get_gt_mask_from_polygons]

    [pad_mask] is a [B x Hp x Wp] tensor of integers held as nested
    lists.  A raster and the stacked masks are arrays given by their
    shape and an index function, so that a [0 x w] array keeps its width.
    The three [pycocotools.mask] functions are parameters. *)

Module GtMask.
Import Py.

(** A [rows x cols] array and an [n x rows x cols] array. *)
Record arr2 := { a_rows : nat; a_cols : nat; a_at : nat -> nat -> R }.
Record arr3 := { d0 : nat; d1 : nat; d2 : nat; at3 : nat -> nat -> nat -> R }.

(** [padding[:, 0]] and [padding[0, :]] *)
Definition column0 (padding : list (list Z)) : res (list Z) :=
  mapM (fun row => match row with x :: _ => inr x | [] => inl IndexError end)
       padding.
Definition row0 (padding : list (list Z)) : res (list Z) :=
  match padding with row :: _ => inr row | [] => inl IndexError end.

(** [int(t.sum())] of an integer vector *)
Definition zsum (l : list Z) : Z := fold_right Z.add 0%Z l.

(** The number of indices [t[:e]] keeps on an axis of size [n]. *)
Definition slice_len (n : nat) (e : Z) : nat :=
  if (e <? 0)%Z then Z.to_nat (Z.max 0 (Z.of_nat n + e))
  else Nat.min (Z.to_nat e) n.

(** [paddle.stack(masks)]: at least one array, all of one shape. *)
Definition stack (masks : list arr2) : res arr3 :=
  match masks with
  | [] => inl ShapeError
  | m :: _ =>
      if forallb (fun g => Nat.eqb (a_rows g) (a_rows m) &&
                           Nat.eqb (a_cols g) (a_cols m)) masks
      then inr {| d0 := length masks; d1 := a_rows m; d2 := a_cols m;
                  at3 := fun o y x => a_at (nth o masks m) y x |}
      else inl ShapeError
  end.

(** [masks_pad = paddle.zeros([n, Hp, Wp]); masks_pad[:, :height, :width] = masks]:
    the assigned value must have the shape of the slice (Paddle's
    broadcasting of size-1 axes is not modelled). *)
Definition paste (Hp Wp : nat) (height width : Z) (masks : arr3) : res arr3 :=
  let sh := slice_len Hp height in
  let sw := slice_len Wp width in
  if Nat.eqb (d1 masks) sh && Nat.eqb (d2 masks) sw then
    inr {| d0 := d0 masks; d1 := Hp; d2 := Wp;
           at3 := fun o y x =>
             if Nat.ltb y sh && Nat.ltb x sw then at3 masks o y x else 0%R |}
  else inl ShapeError.

(** [pad_mask.shape[1]], [pad_mask.shape[2]] *)
Definition pad_shape (pad_mask : list (list (list Z))) : nat * nat :=
  match pad_mask with
  | p :: _ => (length p, match p with r :: _ => length r | [] => 0%nat end)
  | [] => (0%nat, 0%nat)
  end.

Section Rasterizer.
Context {Poly RLE : Type}.

(** [mask_util.frPyObjects], [mask_util.merge] and [mask_util.decode]
    (followed by the conversion to float). *)
Variable frPyObjects : Poly -> Z -> Z -> res (list RLE).
Variable merge : list RLE -> res RLE.
Variable decode : RLE -> res arr2.

(** [mask_util.decode(mask_util.merge(mask_util.frPyObjects(obj_poly, height, width)))] *)
Definition rasterize (obj_poly : Poly) (height width : Z) : res arr2 :=
  res_bind (frPyObjects obj_poly height width)
    (fun rles => res_bind (merge rles) decode).

(** The body of the loop, for one image. *)
Definition image_mask (Hp Wp : nat) (polygons : list Poly)
    (padding : list (list Z)) : res arr3 :=
  res_bind (column0 padding) (fun c =>
  res_bind (row0 padding) (fun r =>
  let height := zsum c in
  let width := zsum r in
  res_bind (mapM (fun obj_poly => rasterize obj_poly height width) polygons)
    (fun masks =>
  res_bind (stack masks) (fun masks =>
  paste Hp Wp height width masks)))).

Definition get_gt_mask_from_polygons (gt_poly : list (list Poly))
    (pad_mask : list (list (list Z))) : res (list arr3) :=
  let '(Hp, Wp) := pad_shape pad_mask in
  mapM (fun '(polygons, padding) => image_mask Hp Wp polygons padding)
       (combine gt_poly pad_mask).

End Rasterizer.

(** [pad_mask[i]] is an [Hp x Wp] grid of zeros and ones. *)
Definition padding_ok (Hp Wp : nat) (padding : list (list Z)) : Prop :=
  length padding = Hp /\
  Forall (fun row => length row = Wp /\
                     Forall (fun v => v = 0%Z \/ v = 1%Z) row) padding.

(** A rasterizer for concrete runs: every polygon covers its whole
    [height x width] canvas. *)
Definition full_frPyObjects (_ : unit) (h w : Z) : res (list (Z * Z)) := inr [(h, w)].
Definition first_merge (rles : list (Z * Z)) : res (Z * Z) :=
  match rles with r :: _ => inr r | [] => inl IndexError end.
Definition full_decode (rle : Z * Z) : res arr2 :=
  inr {| a_rows := Z.to_nat (fst rle); a_cols := Z.to_nat (snd rle);
         a_at := fun _ _ => 1%R |}.

End GtMask.

(* ================================================================== *)
(** * Proofs *)

Module RealFacts.
Import RealOps.
Local Open Scope R_scope.

Lemma rsum_ext : forall n f g,
  (forall i, (i < n)%nat -> f i = g i) -> rsum n f = rsum n g.
Proof.
  induction n as [|n IH]; intros f g H; simpl; [reflexivity|].
  rewrite (IH f g) by (intros; apply H; lia). rewrite (H n) by lia. reflexivity.
Qed.

Lemma rsum_add : forall a b f,
  rsum (a + b) f = rsum a f + rsum b (fun x => f (a + x)%nat).
Proof.
  intros a b f. induction b as [|b IH]; simpl.
  - rewrite Nat.add_0_r. ring.
  - rewrite Nat.add_succ_r. simpl. rewrite IH. ring.
Qed.

(** Summing a row-major [h*w] flat axis is summing the [h] rows of [w]. *)
Lemma rsum_row_major : forall h w g,
  rsum h (fun y => rsum w (fun x => g (y * w + x)%nat)) = rsum (h * w) g.
Proof.
  induction h as [|h IH]; intros w g; simpl; [reflexivity|].
  rewrite IH. replace (w + h * w)%nat with (h * w + w)%nat by lia.
  rewrite rsum_add. reflexivity.
Qed.

Lemma rsum_div : forall n f d,
  rsum n (fun i => f i / d) = rsum n f / d.
Proof.
  induction n as [|n IH]; intros f d; simpl.
  - unfold Rdiv. ring.
  - rewrite IH. unfold Rdiv. ring.
Qed.

Lemma rsum_pos : forall n f,
  (0 < n)%nat -> (forall i, (i < n)%nat -> 0 < f i) -> 0 < rsum n f.
Proof.
  induction n as [|n IH]; intros f Hn Hf; simpl; [lia|].
  destruct n as [|n].
  - simpl. specialize (Hf 0%nat ltac:(lia)). lra.
  - assert (0 < rsum (S n) f) by (apply IH; [lia | intros; apply Hf; lia]).
    specialize (Hf (S n) ltac:(lia)). lra.
Qed.

Lemma rsum_nonneg : forall n f,
  (forall i, (i < n)%nat -> 0 <= f i) -> 0 <= rsum n f.
Proof.
  induction n as [|n IH]; intros f Hf; simpl; [lra|].
  assert (0 <= rsum n f) by (apply IH; intros; apply Hf; lia).
  specialize (Hf n ltac:(lia)). lra.
Qed.

Lemma rsum_term_le : forall n f i,
  (forall j, (j < n)%nat -> 0 <= f j) -> (i < n)%nat -> f i <= rsum n f.
Proof.
  induction n as [|n IH]; intros f i Hf Hi; simpl; [lia|].
  destruct (Nat.eq_dec i n) as [->|Hne].
  - assert (0 <= rsum n f) by (apply rsum_nonneg; intros; apply Hf; lia). lra.
  - assert (f i <= rsum n f) by (apply IH; [intros; apply Hf; lia | lia]).
    specialize (Hf n ltac:(lia)). lra.
Qed.

Lemma sigmoid_in_01 : forall x, 0 <= sigmoid x <= 1.
Proof.
  intro x. unfold sigmoid. pose proof (exp_pos (- x)) as He.
  split.
  - left. apply Rinv_0_lt_compat. lra.
  - rewrite <- Rinv_1. apply Rinv_le_contravar; lra.
Qed.

Lemma relu_nonneg : forall x, 0 <= relu x.
Proof. intro x. unfold relu. apply Rmax_l. Qed.

End RealFacts.

Module LayersFacts.
Import Py RealOps RealFacts Layers.
Local Open Scope R_scope.

Lemma vadd_length : forall u v, length (vadd u v) = Nat.min (length u) (length v).
Proof. induction u as [|a u IH]; destruct v; simpl; auto. Qed.

Lemma linear_fold_length : forall k x W b,
  Forall (fun r => length r = k) W -> length b = k ->
  length (fold_right (fun '(xi, row) acc => vadd (map (Rmult xi) row) acc)
                     b (combine x W)) = k.
Proof.
  intros k x. induction x as [|xi x IH]; intros W b HW Hb; [exact Hb|].
  destruct W as [|row W]; [exact Hb|]. inversion HW; subst.
  cbn [combine fold_right].
  rewrite vadd_length, length_map, (IH W b) by (reflexivity || assumption).
  lia.
Qed.

Lemma linear_apply_ok : forall l n k x,
  linear_dims l (n, k) -> length x = n ->
  exists y, linear_apply l x = inr y /\ length y = k.
Proof.
  intros l n k x [Hw [Hr Hb]] Hx. cbn in *. unfold linear_apply.
  rewrite Hw, Hx, Nat.eqb_refl. eexists. split; [reflexivity|].
  apply linear_fold_length; assumption.
Qed.

Lemma mlp_go_ok : forall nl ls dims i n x,
  Forall2 linear_dims ls dims -> dims_chain n dims -> length x = n ->
  exists y, mlp_go nl i ls x = inr y /\ length y = dims_out n dims.
Proof.
  intros nl ls dims i n x HF. revert i n x.
  induction HF as [|l [a b] ls ds Hl Hls IH]; intros i n x Hc Hx; cbn in *.
  - eexists; split; [reflexivity | exact Hx].
  - destruct Hc as [-> Hc].
    destruct (linear_apply_ok l n b x Hl Hx) as [y [Hy Hly]]. rewrite Hy. cbn.
    apply IH; [exact Hc|]. destruct (Z.ltb i (nl - 1)); [rewrite length_map|]; exact Hly.
Qed.

Lemma last_default_irrel : forall (A : Type) (t : list A) a d,
  t <> [] -> last t a = last t d.
Proof.
  intros A t. induction t as [|x t IH]; intros a d H; [congruence|].
  destruct t as [|y t]; [reflexivity|].
  change (last (y :: t) a = last (y :: t) d). apply IH. discriminate.
Qed.

Lemma last_cons_default : forall (A : Type) (a d : A) t, last (a :: t) d = last t a.
Proof.
  intros A a d t. destruct t as [|b t]; [reflexivity|].
  change (last (b :: t) d = last (b :: t) a).
  apply last_default_irrel. discriminate.
Qed.

Lemma mlp_go_trace : forall nl ls i x,
  mlp_go nl i ls x = res_bind (mlp_trace nl i ls x) (fun t => inr (last t x)).
Proof.
  intros nl ls. induction ls as [|l ls IH]; intros i x; [reflexivity|].
  cbn. destruct (linear_apply l x) as [e|y]; [reflexivity|]. cbn.
  rewrite IH. destruct (mlp_trace nl (i + 1) ls _); [reflexivity|].
  cbn. destruct l0 as [|a t]; [reflexivity|].
  f_equal. apply last_default_irrel. discriminate.
Qed.

Lemma mlp_trace_length : forall nl ls i x t,
  mlp_trace nl i ls x = inr t -> length t = length ls.
Proof.
  intros nl ls. induction ls as [|l ls IH]; intros i x t H; cbn in H.
  - injection H as <-. reflexivity.
  - destruct (linear_apply l x); [discriminate|]. cbn in H.
    destruct (mlp_trace nl (i + 1) ls _) eqn:E; [discriminate|].
    injection H as <-. cbn. f_equal. eapply IH. exact E.
Qed.

Lemma mlp_trace_nonneg : forall nl ls i x t,
  mlp_trace nl i ls x = inr t ->
  forall j a, nth_error t j = Some a -> (i + Z.of_nat j < nl - 1)%Z ->
  Forall (fun v => 0 <= v) a.
Proof.
  intros nl ls. induction ls as [|l ls IH]; intros i x t H j a Hj Hlt; cbn in H.
  - injection H as <-. destruct j; discriminate.
  - destruct (linear_apply l x) as [|y]; [discriminate|]. cbn in H.
    destruct (mlp_trace nl (i + 1) ls _) eqn:E; [discriminate|].
    injection H as <-. destruct j as [|j]; cbn in Hj.
    + injection Hj as <-. replace (Z.ltb i (nl - 1)) with true
        by (symmetry; apply Z.ltb_lt; lia).
      apply Forall_forall. intros v Hv. apply in_map_iff in Hv.
      destruct Hv as [z [<- _]]. apply relu_nonneg.
    + eapply IH; [exact E | exact Hj | lia].
Qed.

Lemma mlp_dims_facts : forall m input hidden output,
  let dims := combine (input :: repeat hidden m) (repeat hidden m ++ [output]) in
  length dims = S m /\ dims_chain input dims /\ dims_out input dims = output /\
  (forall j, (j <= m)%nat ->
     nth j dims (0%nat, 0%nat) =
       (if Nat.eqb j 0 then input else hidden, if Nat.eqb j m then output else hidden)).
Proof.
  induction m as [|m IH]; intros input hidden output dims; subst dims.
  - cbn. repeat split. intros j Hj. replace j with 0%nat by lia. reflexivity.
  - destruct (IH hidden hidden output) as [H1 [H2 [H3 H4]]].
    change (combine (input :: repeat hidden (S m)) (repeat hidden (S m) ++ [output]))
      with ((input, hidden) :: combine (hidden :: repeat hidden m) (repeat hidden m ++ [output])).
    cbn [length dims_chain dims_out]. repeat split; [lia | assumption | assumption |].
    intros j Hj. destruct j as [|j]; [reflexivity|].
    cbn [nth]. rewrite H4 by lia.
    destruct j; cbn; [destruct m|]; reflexivity.
Qed.

Lemma mlp_output_can_be_negative :
  exists (m : MLP) x y, num_layers m = 1%Z /\ mlp_forward m x = inr y /\
    Exists (fun v => v < 0) y.
Proof.
  exists {| num_layers := 1; layers := [{| lin_w := [[-1]]; lin_b := [0] |}] |}.
  exists [1], [1 * -1 + 0]. split; [reflexivity|]. split; [reflexivity|].
  constructor. lra.
Qed.

(** ** C8: an [MLP] with [num_layers >= 1] has exactly [num_layers]
    linear layers, the first [input_dim -> hidden_dim], the middle ones
    [hidden_dim -> hidden_dim], the last [hidden_dim -> output_dim] (a single
    layer is [input_dim -> output_dim]).  Its forward pass maps a vector of
    [input_dim] features to one of [output_dim] features, every activation
    but the last is non-negative (ReLU), and the final output is not
    clamped: it can be negative. *)
Theorem mlp_shape_law :
  forall input_dim hidden_dim output_dim (m : MLP) (x : list R),
  (1 <= num_layers m)%Z ->
  Forall2 linear_dims (layers m)
    (mlp_dims input_dim hidden_dim output_dim (num_layers m)) ->
  length x = input_dim ->
  let n := Z.to_nat (num_layers m) in
  let dims := mlp_dims input_dim hidden_dim output_dim (num_layers m) in
  length dims = n /\
  (forall j, (j < n)%nat ->
     nth j dims (0%nat, 0%nat) =
       (if Nat.eqb j 0 then input_dim else hidden_dim,
        if Nat.eqb j (n - 1) then output_dim else hidden_dim)) /\
  (exists acts y,
     mlp_trace (num_layers m) 0 (layers m) x = inr acts /\
     mlp_forward m x = inr y /\ length y = output_dim /\
     length acts = n /\ last acts x = y /\
     (forall j a, (j < n - 1)%nat -> nth_error acts j = Some a ->
        Forall (fun v => 0 <= v) a)) /\
  (exists (m' : MLP) x' y', num_layers m' = 1%Z /\ mlp_forward m' x' = inr y' /\
     Exists (fun v => v < 0) y').
Proof.
  intros input_dim hidden_dim output_dim m x Hnl HF Hx n dims.
  assert (Hn : n = S (Z.to_nat (num_layers m - 1))) by (subst n; lia).
  destruct (mlp_dims_facts (Z.to_nat (num_layers m - 1)) input_dim hidden_dim output_dim)
    as [H1 [H2 [H3 H4]]].
  fold (mlp_dims input_dim hidden_dim output_dim (num_layers m)) in H1, H2, H3, H4.
  fold dims in H1, H2, H3, H4.
  split; [lia|]. split.
  { intros j Hj. rewrite H4 by lia. f_equal. replace (n - 1)%nat with (Z.to_nat (num_layers m - 1)) by lia.
    reflexivity. }
  split; [|exact mlp_output_can_be_negative].
  destruct (mlp_go_ok (num_layers m) (layers m) dims 0 input_dim x HF H2 Hx) as [y [Hy Hly]].
  pose proof Hy as Hy'. rewrite mlp_go_trace in Hy'.
  destruct (mlp_trace (num_layers m) 0 (layers m) x) as [e|acts] eqn:Ht; [discriminate|].
  cbn in Hy'. injection Hy' as Hlast.
  exists acts, y. split; [reflexivity|]. split; [exact Hy|]. split; [congruence|].
  split.
  { rewrite (mlp_trace_length _ _ _ _ _ Ht), (Forall2_length HF). fold dims. lia. }
  split; [exact Hlast|].
  intros j a Hj Ha. eapply mlp_trace_nonneg; [exact Ht | exact Ha | lia].
Qed.

Lemma mlp_shape_law_witness :
  let m := {| num_layers := 2;
              layers := [{| lin_w := [[1; 0]]; lin_b := [0; 0] |};
                         {| lin_w := [[1]; [1]]; lin_b := [0] |}] |} in
  length (mlp_dims 1 2 1 (num_layers m)) = Z.to_nat (num_layers m).
Proof.
  intro m. apply (mlp_shape_law 1 2 1 m [1]).
  - cbn. lia.
  - cbn. repeat constructor.
  - reflexivity.
Defined.

End LayersFacts.

Module AttentionMapFacts.
Import RealOps RealFacts AttentionMap.
Local Open Scope R_scope.

Lemma softmax_flat_spatial_denominator_pos : forall h w (W : T5) b qi hd,
  (0 < h)%nat -> (0 < w)%nat ->
  0 < rsum (h * w) (fun j => exp (W b qi hd (j / w)%nat (j mod w)%nat)).
Proof.
  intros h w W b qi hd Hh Hw. apply rsum_pos; [nia|]. intros; apply exp_pos.
Qed.

Lemma softmax_flat_spatial_sum : forall h w (W : T5) b qi hd,
  (0 < h)%nat -> (0 < w)%nat ->
  rsum h (fun y => rsum w (fun x => softmax_flat_spatial h w W b qi hd y x)) = 1.
Proof.
  intros h w W b qi hd Hh Hw. unfold softmax_flat_spatial.
  set (D := rsum (h * w) (fun j => exp (W b qi hd (j / w)%nat (j mod w)%nat))).
  pose proof (softmax_flat_spatial_denominator_pos h w W b qi hd Hh Hw) as HD.
  fold D in HD.
  rewrite (rsum_row_major h w
             (fun i => exp (W b qi hd (i / w)%nat (i mod w)%nat) / D)).
  rewrite rsum_div. fold D. field. lra.
Qed.

Lemma softmax_flat_spatial_bounds : forall h w (W : T5) b qi hd y x,
  (y < h)%nat -> (x < w)%nat ->
  0 <= softmax_flat_spatial h w W b qi hd y x <= 1.
Proof.
  intros h w W b qi hd y x Hy Hx. unfold softmax_flat_spatial.
  set (f := fun j => exp (W b qi hd (j / w)%nat (j mod w)%nat)).
  assert (Hi : (y * w + x < h * w)%nat) by nia.
  assert (HD : 0 < rsum (h * w) f)
    by (apply rsum_pos; [nia | intros; unfold f; apply exp_pos]).
  assert (Hle : f (y * w + x)%nat <= rsum (h * w) f)
    by (apply rsum_term_le; [intros; left; unfold f; apply exp_pos | exact Hi]).
  assert (Hp : 0 < f (y * w + x)%nat) by (unfold f; apply exp_pos).
  change (0 <= f (y * w + x)%nat / rsum (h * w) f <= 1).
  split.
  - unfold Rdiv. apply Rmult_le_pos; [lra|]. left. apply Rinv_0_lt_compat. lra.
  - apply (Rmult_le_reg_r (rsum (h * w) f)); [lra|].
    unfold Rdiv. rewrite Rmult_assoc, Rinv_l by lra. lra.
Qed.

(** ** C1: the pre-dropout attention weights of [MultiHeadAttentionMap.forward]
    lie in [0,1] and sum to 1 over the flattened [h x w] extent for every
    (batch, query, head) triple. *)
Theorem attention_weights_normalized :
  forall (m : MultiHeadAttentionMap) (h w : nat) (q : T3) (k : T4)
         (mask : option T5) (W : T5),
  weights_pre_dropout m h w q k mask = Some W ->
  (0 < h)%nat -> (0 < w)%nat ->
  forall b qi hd,
    (forall y x, (y < h)%nat -> (x < w)%nat -> 0 <= W b qi hd y x <= 1) /\
    rsum h (fun y => rsum w (fun x => W b qi hd y x)) = 1.
Proof.
  intros m h w q k mask W Hf Hh Hw b qi hd.
  unfold weights_pre_dropout in Hf.
  destruct (reshape_ok m); inversion Hf; subst; clear Hf.
  split.
  - intros y x Hy Hx. apply softmax_flat_spatial_bounds; assumption.
  - apply softmax_flat_spatial_sum; assumption.
Qed.

Lemma attention_weights_normalized_witness :
  let m := {| query_dim := 1; hidden_dim := 2; num_heads := 2;
              q_w := fun _ _ => 1; q_b := fun _ => 0;
              k_w := fun _ _ => 1; k_b := fun _ => 0 |} in
  let q : T3 := fun _ _ _ => 1 in
  let k : T4 := fun _ _ y x => INR (y + x) in
  let W := softmax_flat_spatial 2 3 (attention_logits m 3 q k None) in
  rsum 2 (fun y => rsum 3 (fun x => W 0%nat 0%nat 1%nat y x)) = 1.
Proof.
  intros m q k W.
  exact (proj2 (attention_weights_normalized m 2 3 q k None W eq_refl
                  ltac:(lia) ltac:(lia) 0 0 1)).
Defined.

End AttentionMapFacts.

Module MaskHeadFacts.
Import MaskHead.


Lemma zip3_nil_l : forall A B C (ys : list B) (zs : list C),
  zip3 (A := A) [] ys zs = [].
Proof. reflexivity. Qed.

(** ** C3 (code defect): [x.tile([Q, 1, 1, 1])] repeats the whole batch,
    so the fused image at row [b*Q + q] (the row order of
    [bbox_attention_map.flatten(0, 1)] and of the final
    [reshape([B, Q, ...])]) carries the channels of [x[(b*Q + q) mod B]].
    With [B = 2], [Q = 2], row 1 is query 1 of image 0, yet it carries
    the channels of image 1. *)
Theorem fuse_tiles_batch_not_queries :
  fuse [[10]; [11]] [[[20]; [21]]; [[22]; [23]]] =
    Some [[10; 20]; [11; 21]; [10; 22]; [11; 23]] /\
  nth_error [[10; 20]; [11; 21]; [10; 22]; [11; 23]] (0 * 2 + 1) = Some [11; 21] /\
  [11; 21] <> [10; 21].
Proof.
  split; [reflexivity|]. split; [reflexivity|]. discriminate.
Qed.

(** ** C4, counterexample: with [context_dim = 256] the intermediate
    stages output 128, 64, 32, 16 channels, not 256, 128, 64, 32. *)
Lemma conv_inter_depths_counterexample :
  exists mh, init 264 [1024; 512; 256] 256 8 = Some mh /\
    map (fun b => cout (blk_conv b)) (conv_inter mh) = [128; 64; 32; 16] /\
    map (fun b => cout (blk_conv b)) (conv_inter mh) <> [256; 128; 64; 32].
Proof.
  eexists. split; [reflexivity|]. split; [reflexivity|]. cbn. discriminate.
Qed.

(** ** C4, as the code builds it: a constructed [MaskHeadFPNConv] has four
    3x3 intermediate conv blocks mapping [input_dim] to
    [context_dim // 2], then [// 4], [// 8], [// 16] channels, and a 3x3
    output convolution from [context_dim // 16] to 1 channel. *)
Theorem conv_inter_depths :
  forall input_dim fpn_dims context_dim num_groups mh,
  init input_dim fpn_dims context_dim num_groups = Some mh ->
  map (fun b => cin (blk_conv b)) (conv_inter mh) =
    [input_dim; context_dim / 2; context_dim / 4; context_dim / 8] /\
  map (fun b => cout (blk_conv b)) (conv_inter mh) =
    [context_dim / 2; context_dim / 4; context_dim / 8; context_dim / 16] /\
  map (fun b => ksize (blk_conv b)) (conv_inter mh) = [3; 3; 3; 3] /\
  conv_out mh = {| cin := context_dim / 16; cout := 1; ksize := 3; padding := 1 |}.
Proof.
  intros input_dim fpn_dims context_dim num_groups mh H.
  unfold init in H.
  destruct (make_adapters _ 0 fpn_dims); [|discriminate].
  injection H as <-. cbn. repeat split.
Qed.

Lemma conv_inter_depths_witness :
  exists mh, init 264 [1024; 512; 256] 256 8 = Some mh /\
  map (fun b => cout (blk_conv b)) (conv_inter mh) = [256 / 2; 256 / 4; 256 / 8; 256 / 16].
Proof.
  exists {| conv0 := make_layers 264 264 3 8;
            conv_inter := map (fun '(i, o) => make_layers i o 3 8)
              (combine (removelast (inter_dims 264 256)) (tl (inter_dims 264 256)));
            conv_out := {| cin := 16; cout := 1; ksize := 3; padding := 1 |};
            adapter := [{| cin := 1024; cout := 128; ksize := 1; padding := 0 |};
                        {| cin := 512; cout := 64; ksize := 1; padding := 0 |};
                        {| cin := 256; cout := 32; ksize := 1; padding := 0 |}] |}.
  assert (H : init 264 [1024; 512; 256] 256 8 = Some _) by reflexivity.
  split; [exact H|]. exact (proj1 (proj2 (conv_inter_depths _ _ _ _ _ H))).
Defined.

Lemma concat1_tile_flatten : forall b q c e h w,
  concat1_shape (tile_shape q (mk4 b c h w)) (flatten01_shape (mk5 b q e h w)) =
  Some (mk4 (b * q) (c + e) h w).
Proof.
  intros. unfold concat1_shape; cbn. rewrite !Nat.eqb_refl. reflexivity.
Qed.

Lemma block_eq : forall i o g n c h w,
  block (make_layers i o 3 g) (mk4 n c h w) =
  if Nat.eqb c i then (if group_norm_ok g o then Some (mk4 n o h w) else None)
  else None.
Proof.
  intros. unfold block, conv2d; cbn.
  destruct (Nat.eqb c i); [|reflexivity].
  unfold group_norm; cbn. destruct (group_norm_ok g o); [|reflexivity].
  f_equal. f_equal; lia.
Qed.

Lemma block_ok : forall i o g n h w,
  group_norm_ok g o = true ->
  block (make_layers i o 3 g) (mk4 n i h w) = Some (mk4 n o h w).
Proof.
  intros i o g n h w Hg. rewrite block_eq, Nat.eqb_refl, Hg. reflexivity.
Qed.

Lemma block_bad : forall i o g n c h w,
  c <> i -> block (make_layers i o 3 g) (mk4 n c h w) = None.
Proof.
  intros i o g n c h w Hc. rewrite block_eq.
  destruct (Nat.eqb_spec c i); [contradiction | reflexivity].
Qed.

Lemma adapter_ok : forall c o n h w,
  conv2d {| cin := c; cout := o; ksize := 1; padding := 0 |} (mk4 n c h w) =
  Some (mk4 n o h w).
Proof.
  intros. unfold conv2d; cbn. rewrite Nat.eqb_refl. f_equal. f_equal; lia.
Qed.

Lemma fpn_add_ok : forall q n o h w h' w',
  add_shape (tile_shape q (mk4 n o h w))
    (interpolate_shape (mk4 (n * q) o h' w') (tile_shape q (mk4 n o h w))) =
  Some (mk4 (n * q) o h w).
Proof.
  intros. unfold add_shape, shape4_eqb; cbn. rewrite !Nat.eqb_refl. reflexivity.
Qed.

Lemma conv_out_ok : forall c n h w,
  conv2d {| cin := c; cout := 1; ksize := 3; padding := 1 |} (mk4 n c h w) =
  Some (mk4 n 1 h w).
Proof.
  intros. unfold conv2d; cbn. rewrite Nat.eqb_refl. f_equal. f_equal; lia.
Qed.

(** Runs a constructed head's forward pass on shapes, splitting on each
    channel check and each group-norm check it meets. *)
Ltac run_mask_head :=
  repeat first
    [ rewrite block_eq
    | rewrite adapter_ok
    | rewrite fpn_add_ok
    | rewrite conv_out_ok
    | rewrite Nat.eqb_refl
    | match goal with |- context [group_norm_ok ?g ?c] =>
        let E := fresh "Egn" in destruct (group_norm_ok g c) eqn:E end
    | match goal with |- context [Nat.eqb ?a ?b] => destruct (Nat.eqb_spec a b) end
    | progress cbn [andb] ].



(** ** C5, as the code does it: only a pyramid of more than 4 levels is
    refused ([IndexError] at construction).  A 4-level pyramid is accepted
    and the forward pass is exactly that of the head built on its first 3
    levels (the 4th adapter and feature are dropped by [zip]).  A pyramid
    of [k < 3] levels is accepted at construction, and with well-shaped
    inputs the forward pass fails exactly when the depth reached after [k]
    stages ([inter_dims[k]]) differs from [context_dim // 8], the input
    depth of the last intermediate stage, or when a [GroupNorm] it runs
    refuses [num_groups] for its channel count: those of [conv0]
    ([input_dim]), of the first [k] stages ([inter_dims[1..k]]) and of
    the last stage ([context_dim // 16]). *)
Local Opaque Nat.div.




End MaskHeadFacts.

Module DetrHeadFacts.
Import Py RealOps RealFacts Layers LayersFacts DetrHead.
Local Open Scope string_scope.

Local Notation "x <- m ;; k" := (bind m (fun x => k))
  (at level 61, m at next level, right associativity).

Lemma last_item_map : forall A B (f : A -> B) l,
  last_item (map f l) = res_bind (last_item l) (fun a => inr (f a)).
Proof.
  intros A B f l. induction l as [|a l IH]; [reflexivity|].
  destruct l as [|b l]; [reflexivity|].
  change (last_item (map f (b :: l)) = res_bind (last_item (b :: l)) (fun a => inr (f a))).
  exact IH.
Qed.

Lemma res_bind_inr : forall A B (r : res A) (f : A -> B) b,
  res_bind r (fun a => inr (f a)) = inr b -> exists a, r = inr a /\ b = f a.
Proof.
  intros A B r f b H. destruct r as [e|a]; [discriminate|].
  injection H as <-. exists a. split; reflexivity.
Qed.

Lemma mapM_last : forall A B (g : A -> res B) l r y,
  mapM g l = inr r -> last_item r = inr y ->
  exists x, last_item l = inr x /\ g x = inr y.
Proof.
  intros A B g l. induction l as [|a l IH]; intros r y Hm Hl.
  - injection Hm as <-. discriminate.
  - cbn in Hm. destruct (g a) as [e|b] eqn:Ea; [discriminate|]. cbn in Hm.
    destruct (mapM g l) as [e|bs] eqn:El; [discriminate|]. injection Hm as <-.
    destruct l as [|a' l].
    + cbn in El. injection El as <-. cbn in Hl. injection Hl as <-.
      exists a. split; [reflexivity | exact Ea].
    + destruct bs as [|b' bs].
      * cbn in El. destruct (g a'); [discriminate|]. cbn in El.
        destruct (mapM g l); discriminate.
      * destruct (IH _ _ eq_refl Hl) as [x [Hx Hgx]].
        exists x. split; [exact Hx | exact Hgx].
Qed.

Lemma last_item_Forall : forall A (P : A -> Prop) l x,
  Forall P l -> last_item l = inr x -> P x.
Proof.
  intros A P l x HP. induction HP as [|a l Ha HP IH]; intro H; [discriminate|].
  destruct l as [|b l].
  - injection H as <-. exact Ha.
  - apply IH. exact H.
Qed.

Lemma map4_sigmoid_in01 : forall t,
  Forall (Forall (Forall (Forall (fun v => (0 <= v <= 1)%R)))) (map4 sigmoid t).
Proof.
  intro t. unfold map4.
  apply Forall_map, Forall_forall. intros l _.
  apply Forall_map, Forall_forall. intros b _.
  apply Forall_map, Forall_forall. intros v _.
  apply Forall_map, Forall_forall. intros x _.
  apply sigmoid_in_01.
Qed.

Lemma linear_fold_length_eq : forall x1 x2 (W : list (list R)) b,
  length x1 = length x2 ->
  length (fold_right (fun '(xi, row) acc => vadd (map (Rmult xi) row) acc)
                     b (combine x1 W)) =
  length (fold_right (fun '(xi, row) acc => vadd (map (Rmult xi) row) acc)
                     b (combine x2 W)).
Proof.
  induction x1 as [|a x1 IH]; intros x2 W b H; destruct x2 as [|a' x2];
    try discriminate; [reflexivity|].
  destruct W as [|row W]; [reflexivity|].
  cbn [combine fold_right]. rewrite !vadd_length, !length_map.
  rewrite (IH x2 W b) by (cbn in H; lia). reflexivity.
Qed.

(** A linear layer succeeds or raises depending only on the length of its
    input, and its output length too. *)
Lemma linear_apply_uniform : forall l x1 x2,
  length x1 = length x2 ->
  (exists e, linear_apply l x1 = inl e /\ linear_apply l x2 = inl e) \/
  (exists y1 y2, linear_apply l x1 = inr y1 /\ linear_apply l x2 = inr y2 /\
                 length y1 = length y2).
Proof.
  intros l x1 x2 H. unfold linear_apply. rewrite H.
  destruct (Nat.eqb (length x2) (length (lin_w l))).
  - right. do 2 eexists. split; [reflexivity|]. split; [reflexivity|].
    apply linear_fold_length_eq. exact H.
  - left. eexists. split; reflexivity.
Qed.

Lemma mlp_go_uniform : forall nl ls i x1 x2,
  length x1 = length x2 ->
  (exists e, mlp_go nl i ls x1 = inl e /\ mlp_go nl i ls x2 = inl e) \/
  (exists y1 y2, mlp_go nl i ls x1 = inr y1 /\ mlp_go nl i ls x2 = inr y2 /\
                 length y1 = length y2).
Proof.
  intros nl ls. induction ls as [|l ls IH]; intros i x1 x2 H.
  - right. do 2 eexists. split; [reflexivity|]. split; [reflexivity | exact H].
  - cbn. destruct (linear_apply_uniform l x1 x2 H)
      as [[e [-> ->]] | [y1 [y2 [-> [-> Hy]]]]].
    + left. exists e. split; reflexivity.
    + cbn. apply IH. destruct (Z.ltb i (nl - 1)); [rewrite !length_map|]; exact Hy.
Qed.

Lemma agree_of_uniform : forall (f : list R -> res (list R)) D,
  (forall x1 x2, length x1 = length x2 ->
     (exists e, f x1 = inl e /\ f x2 = inl e) \/
     (exists y1 y2, f x1 = inr y1 /\ f x2 = inr y2 /\ length y1 = length y2)) ->
  uniform_on f (fun v => length v = D).
Proof.
  intros f D Hf a1 a2 H1 H2.
  destruct (Hf a1 a2 ltac:(congruence)) as [[e [-> ->]] | [y1 [y2 [-> [-> _]]]]];
    cbn; reflexivity || exact I.
Qed.

Lemma mapM_all_ok : forall A X (g : A -> res X) l,
  (forall a, In a l -> exists y, g a = inr y) -> exists r, mapM g l = inr r.
Proof.
  intros A X g l. induction l as [|a l IH]; intro H; [eexists; reflexivity|].
  destruct (H a (or_introl eq_refl)) as [y Hy].
  destruct IH as [r Hr]; [intros b Hb; apply H; right; exact Hb|].
  cbn. rewrite Hy, Hr. eexists; reflexivity.
Qed.

Lemma mapM_agree_nonempty : forall A X (g : A -> res X) P l1 l2,
  uniform_on g P -> Forall P l1 -> Forall P l2 -> l1 <> [] -> l2 <> [] ->
  agree (mapM g l1) (mapM g l2).
Proof.
  intros A X g P l1 l2 Hu H1 H2 Hn1 Hn2.
  destruct l1 as [|a1 r1]; [congruence|]. destruct l2 as [|a2 r2]; [congruence|].
  inversion H1 as [|? ? Pa1 Pr1]; inversion H2 as [|? ? Pa2 Pr2]; subst.
  pose proof (Hu a1 a2 Pa1 Pa2) as Ha. unfold agree in Ha.
  destruct (g a1) as [e1|y1] eqn:E1, (g a2) as [e2|y2] eqn:E2; try contradiction.
  - subst. cbn. rewrite E1, E2. reflexivity.
  - assert (Hall : forall l, Forall P l -> exists r, mapM g l = inr r).
    { intros l Hl. apply mapM_all_ok. intros b Hb.
      rewrite Forall_forall in Hl. pose proof (Hu a1 b Pa1 (Hl b Hb)) as Hab.
      unfold agree in Hab. rewrite E1 in Hab.
      destruct (g b); [contradiction | eexists; reflexivity]. }
    destruct (Hall _ H1) as [r1' Hr1]. destruct (Hall _ H2) as [r2' Hr2].
    rewrite Hr1, Hr2. exact I.
Qed.

Lemma mapM_uniform : forall A X (g : A -> res X) P n,
  uniform_on g P -> uniform_on (mapM g) (fun l => Forall P l /\ length l = n).
Proof.
  intros A X g P n Hu l1 l2 [H1 L1] [H2 L2].
  destruct n as [|n].
  - destruct l1; [|discriminate]. destruct l2; [|discriminate]. exact I.
  - apply (mapM_agree_nonempty _ _ g P); try assumption;
      intro; subst; discriminate.
Qed.

Lemma mapM_length : forall A X (g : A -> res X) l r,
  mapM g l = inr r -> length r = length l.
Proof.
  intros A X g l. induction l as [|a l IH]; intros r H.
  - injection H as <-. reflexivity.
  - cbn in H. destruct (g a); [discriminate|]. cbn in H.
    destruct (mapM g l) eqn:E; [discriminate|]. injection H as <-.
    cbn. f_equal. apply IH. reflexivity.
Qed.

Lemma mapM_last_item : forall A X (g : A -> res X) l r,
  mapM g l = inr r -> last_item r = res_bind (last_item l) g.
Proof.
  intros A X g l. induction l as [|a l IH]; intros r H.
  - injection H as <-. reflexivity.
  - cbn in H. destruct (g a) as [e|b] eqn:Ea; [discriminate|]. cbn in H.
    destruct (mapM g l) as [e|r'] eqn:E; [discriminate|]. injection H as <-.
    destruct l as [|a' l].
    + cbn in E. injection E as <-. cbn. rewrite Ea. reflexivity.
    + destruct r' as [|b' r'].
      * apply mapM_length in E. discriminate.
      * change (last_item (b' :: r') = res_bind (last_item (a' :: l)) g).
        apply IH. reflexivity.
Qed.

Lemma is_tensor4_shapes : forall t B Q D,
  is_tensor4 t B Q D -> t <> [] ->
  shape1 t = B /\ shape2 t = (if Nat.eqb B 0 then 0 else Q).
Proof.
  intros t B Q D H Hn. destruct t as [|l0 t]; [congruence|].
  inversion H as [|? ? [Hl0 Hlen] _]; subst. cbn. split; [reflexivity|].
  destruct l0 as [|b0 l0]; [reflexivity|]. cbn.
  inversion Hl0 as [|? ? [_ Hq] _]; subst. reflexivity.
Qed.

(** Applying a layer on the last axis of two tensors of one [B x Q x D]
    slice shape: both raise the same exception, or both return tensors
    whose last slices agree when the inputs' last slices do. *)
Lemma apply_last_agree : forall f tA tB B Q D,
  uniform_on f (fun v => length v = D) ->
  is_tensor4 tA B Q D -> is_tensor4 tB B Q D -> tA <> [] -> tB <> [] ->
  agree (apply_last f tA) (apply_last f tB).
Proof.
  intros f tA tB B Q D Hu HA HB HnA HnB. unfold apply_last.
  apply (mapM_agree_nonempty _ _ _
           (fun l => Forall (fun bq => Forall (fun v => length v = D) bq /\
                                       length bq = Q) l /\ length l = B));
    try assumption.
  apply mapM_uniform, mapM_uniform, Hu.
Qed.

Section Facts.
Context {Mem Proj Mask Feat Attn Seg GtVal GtMask LossOut : Type}.
Variable bbox_attention : T3 -> Mem -> Mask -> res Attn.
Variable mask_head : Proj -> Attn -> list Feat -> res Seg.
Variable seg_hw : Seg -> nat * nat.
Variable seg_reshape : Seg -> list nat -> res Seg.
Variable get_gt_mask_from_polygons : GtVal -> GtVal -> res GtMask.
Variable loss : T4 -> T4 -> GtVal -> GtVal -> option Seg -> option GtMask -> res LossOut.

Local Abbreviation HO := (head_outputs bbox_attention mask_head seg_hw seg_reshape).
Local Abbreviation FWD := (forward bbox_attention mask_head seg_hw seg_reshape
                         get_gt_mask_from_polygons loss).

Lemma head_outputs_starts_with_score_head :
  forall h feats memory src_proj src_mask (body_feats : list Feat),
  exists rest, fst (HO h feats memory src_proj src_mask body_feats) = EScoreHead :: rest.
Proof.
  intros. unfold head_outputs, bind, run. cbn.
  destruct (apply_last (linear_apply (score_head h)) feats); cbn; [eexists; reflexivity|].
  match goal with |- context [let (_, _) := ?x in _] => destruct x end.
  eexists; reflexivity.
Qed.

(** ** C2, as the code does it: in training mode, with [inputs] [None]
    or lacking [gt_bbox] or [gt_class], [forward] raises [AssertionError],
    but only after the score head, the box head and (when enabled) the
    attention map and mask head have run: the run is that of lines 213-225
    followed by the raise, and it always starts with the score head. *)
Theorem training_assert_after_head_outputs :
  forall (h : DETRHead) feats memory src_proj src_mask (body_feats : list Feat)
         (inputs : option (dict GtVal)),
  training h = true ->
  (inputs = None \/
   exists d, inputs = Some d /\
     (dict_mem "gt_bbox" d = false \/ dict_mem "gt_class" d = false)) ->
  FWD h (feats, memory, src_proj, src_mask) body_feats inputs =
    (_ <- HO h feats memory src_proj src_mask body_feats ;; raise AssertionError) /\
  exists rest, fst (HO h feats memory src_proj src_mask body_feats) = EScoreHead :: rest.
Proof.
  intros h feats memory src_proj src_mask body_feats inputs Ht Hin.
  split; [|apply head_outputs_starts_with_score_head].
  unfold forward. destruct (HO h feats memory src_proj src_mask body_feats)
    as [l [e|[[lg bx] sg]]]; [reflexivity|].
  cbn. rewrite Ht. destruct Hin as [->|[d [-> Hd]]]; [reflexivity|].
  destruct Hd as [Hd|Hd]; rewrite Hd; [|rewrite andb_false_r]; reflexivity.
Qed.

Lemma head_outputs_boxes : forall h feats memory src_proj src_mask
    (body_feats : list Feat) log lg bx sg,
  HO h feats memory src_proj src_mask body_feats = (log, inr (lg, bx, sg)) ->
  exists raw lg', apply_last (mlp_forward (bbox_head h)) feats = inr raw /\
    apply_last (linear_apply (score_head h)) feats = inr lg' /\
    lg = lg' /\ bx = map4 sigmoid raw /\
    (with_mask_head h = false -> sg = None) /\
    (with_mask_head h = true -> exists s, sg = Some s).
Proof.
  intros h feats memory src_proj src_mask body_feats log lg bx sg H.
  unfold head_outputs, bind, run, ret, lift in H.
  destruct (apply_last (linear_apply (score_head h)) feats) as [e|lg'];
    [discriminate|].
  destruct (apply_last (mlp_forward (bbox_head h)) feats) as [e|raw];
    [discriminate|].
  exists raw, lg'. split; [reflexivity|]. split; [reflexivity|].
  destruct (with_mask_head h) eqn:Hm.
  - destruct (last_item feats) as [e|q]; [discriminate|].
    destruct (bbox_attention q memory src_mask) as [e|am]; [discriminate|].
    destruct (mask_head src_proj am (tl (rev body_feats))) as [e|seg]; [discriminate|].
    destruct (seg_reshape seg _) as [e|seg']; [discriminate|].
    injection H as _ <- <- <-. split; [reflexivity|]. split; [reflexivity|].
    split; [intro Hc; discriminate Hc | intros _; eexists; reflexivity].
  - injection H as _ <- <- <-. split; [reflexivity|]. split; [reflexivity|].
    split; [intros _; reflexivity | intro Hc; discriminate Hc].
Qed.

(** ** C6: the box tensor [forward] computes (for every decoder layer) has
    every coordinate in [0,1], being the [sigmoid] of the box head's
    output; it is what the loss receives in training mode, and in inference
    mode the returned boxes are in [0,1] too. *)
Theorem boxes_in_unit_interval :
  forall (h : DETRHead) feats memory src_proj src_mask (body_feats : list Feat),
  (forall log lg bx sg,
     HO h feats memory src_proj src_mask body_feats = (log, inr (lg, bx, sg)) ->
     Forall (Forall (Forall (Forall (fun v => (0 <= v <= 1)%R)))) bx) /\
  (forall (inputs : option (dict GtVal)) log bx lg sg,
     training h = false ->
     FWD h (feats, memory, src_proj, src_mask) body_feats inputs =
       (log, inr (Predictions bx lg sg)) ->
     Forall (Forall (Forall (fun v => (0 <= v <= 1)%R))) bx).
Proof.
  intros h feats memory src_proj src_mask body_feats. split.
  - intros log lg bx sg H.
    destruct (head_outputs_boxes _ _ _ _ _ _ _ _ _ _ H) as [raw [lg' [_ [_ [_ [Hbx _]]]]]].
    rewrite Hbx. apply map4_sigmoid_in01.
  - intros inputs log bx lg sg Ht H. unfold forward in H.
    destruct (HO h feats memory src_proj src_mask body_feats)
      as [l [e|[[lg4 bx4] sg4]]] eqn:E; [discriminate|].
    cbn in H. rewrite Ht in H. cbn in H.
    destruct (last_item bx4) as [e|b] eqn:Eb; [discriminate|]. cbn in H.
    destruct (last_item lg4) as [e|g]; [discriminate|]. cbn in H.
    injection H as _ <- _ _.
    destruct (head_outputs_boxes _ _ _ _ _ _ _ _ _ _ E) as [raw [lg' [_ [_ [_ [Hbx _]]]]]].
    rewrite Hbx in Eb. exact (last_item_Forall _ _ _ _ (map4_sigmoid_in01 raw) Eb).
Qed.

(** ** C7: in inference mode a successful [forward] returns exactly
    [Predictions boxes logits masks], where [boxes] and [logits] are the
    (sigmoid of the) box head and the score head applied to the last decoder
    layer [feats[-1]], and [masks] is [None] exactly when the mask branch is
    disabled. *)
Theorem inference_returns_last_layer :
  forall (h : DETRHead) feats memory src_proj src_mask (body_feats : list Feat)
         (inputs : option (dict GtVal)) log out,
  training h = false ->
  FWD h (feats, memory, src_proj, src_mask) body_feats inputs = (log, inr out) ->
  exists q raw lg sg,
    last_item feats = inr q /\
    mapM (mapM (mlp_forward (bbox_head h))) q = inr raw /\
    mapM (mapM (linear_apply (score_head h))) q = inr lg /\
    out = Predictions (map (map (map sigmoid)) raw) lg sg /\
    (with_mask_head h = false -> sg = None) /\
    (with_mask_head h = true -> exists s, sg = Some s).
Proof.
  intros h feats memory src_proj src_mask body_feats inputs log out Ht H.
  unfold forward in H.
  destruct (HO h feats memory src_proj src_mask body_feats)
    as [l [e|[[lg4 bx4] sg4]]] eqn:E; [discriminate|].
  cbn in H. rewrite Ht in H. cbn in H.
  destruct (last_item bx4) as [e|b] eqn:Eb; [discriminate|]. cbn in H.
  destruct (last_item lg4) as [e|g] eqn:Eg; [discriminate|]. cbn in H.
  injection H as _ <-.
  destruct (head_outputs_boxes _ _ _ _ _ _ _ _ _ _ E)
    as [raw [lg' [Hraw [Hlg [Hlg' [Hbx [Hm1 Hm2]]]]]]].
  subst lg4 bx4.
  unfold map4 in Eb. rewrite last_item_map in Eb.
  apply res_bind_inr in Eb. destruct Eb as [rb [Erb ->]].
  destruct (mapM_last _ _ _ _ _ _ Hraw Erb) as [q [Hq Hqr]].
  destruct (mapM_last _ _ _ _ _ _ Hlg Eg) as [q' [Hq' Hqg]].
  rewrite Hq in Hq'. injection Hq' as <-.
  exists q, rb, g, sg4. repeat split; assumption.
Qed.

(** ** C10: in inference mode, two runs of [forward] on query features of
    one [B x Q x D] slice shape whose last decoder layers [feats[-1]] are
    equal, with the same memory, projected memory, mask and backbone
    features, give the same result, whatever the earlier layers hold (and
    however many there are): same returned tuple, or same exception, and
    the same sequence of tensor computations. *)
Theorem inference_ignores_earlier_layers :
  forall (h : DETRHead) (fA fB : T4) memory src_proj src_mask
         (body_feats : list Feat) (inA inB : option (dict GtVal)) B Q D,
  training h = false ->
  is_tensor4 fA B Q D -> is_tensor4 fB B Q D -> fA <> [] -> fB <> [] ->
  last_item fA = last_item fB ->
  FWD h (fA, memory, src_proj, src_mask) body_feats inA =
  FWD h (fB, memory, src_proj, src_mask) body_feats inB.
Proof.
  intros h fA fB memory src_proj src_mask body_feats inA inB B Q D
    Ht HA HB HnA HnB Hlast.
  pose proof (apply_last_agree (linear_apply (score_head h)) fA fB B Q D
    (agree_of_uniform _ D (linear_apply_uniform _)) HA HB HnA HnB) as Hs.
  pose proof (apply_last_agree (mlp_forward (bbox_head h)) fA fB B Q D
    (agree_of_uniform _ D (fun x1 x2 => mlp_go_uniform _ _ _ x1 x2)) HA HB HnA HnB) as Hb.
  destruct (is_tensor4_shapes _ _ _ _ HA HnA) as [HA1 HA2].
  destruct (is_tensor4_shapes _ _ _ _ HB HnB) as [HB1 HB2].
  unfold forward, head_outputs. rewrite HA1, HA2, HB1, HB2, Hlast.
  destruct (apply_last (linear_apply (score_head h)) fA) as [eA|lA] eqn:EA,
           (apply_last (linear_apply (score_head h)) fB) as [eB|lB] eqn:EB;
    cbn in Hs; try contradiction; [subst; reflexivity|].
  destruct (apply_last (mlp_forward (bbox_head h)) fA) as [eA|rA] eqn:RA,
           (apply_last (mlp_forward (bbox_head h)) fB) as [eB|rB] eqn:RB;
    cbn in Hb; try contradiction; [subst; reflexivity|].
  assert (Hr : last_item rA = last_item rB).
  { rewrite (mapM_last_item _ _ _ _ _ RA), (mapM_last_item _ _ _ _ _ RB).
    exact (f_equal (fun x => res_bind x _) Hlast). }
  assert (Hl : last_item lA = last_item lB).
  { rewrite (mapM_last_item _ _ _ _ _ EA), (mapM_last_item _ _ _ _ _ EB).
    exact (f_equal (fun x => res_bind x _) Hlast). }
  match goal with
  | |- context [bind (if with_mask_head h then ?x else ?y) _] =>
      destruct (if with_mask_head h then x else y) as [l0 [e|sg]]
  end; [reflexivity|].
  cbn. rewrite Ht. unfold map4. rewrite !last_item_map, Hl.
  rewrite (Hr : @last_item (list (list (list R))) rA = last_item rB). reflexivity.
Qed.

End Facts.

(** ** C2, counterexample: in training mode with [inputs = None], the
    score head and the box head run before the assertion fails. *)
Lemma training_assert_counterexample :
  forward (fun _ _ _ => inr tt) (fun _ _ _ => inr tt) (fun _ => (1%nat, 1%nat))
    (fun s _ => inr s) (fun (_ _ : unit) => inr tt) (fun _ _ _ _ _ _ => inr tt)
    (example_head true false) ([[[[1]]]; [[[2]]]]%R, tt, tt, tt) (@nil unit) None
  = ([EScoreHead; EBboxHead], inl AssertionError).
Proof. reflexivity. Qed.

Lemma training_assert_after_head_outputs_witness :
  forward (fun _ _ _ => inr tt) (fun _ _ _ => inr tt) (fun _ => (1%nat, 1%nat))
    (fun s _ => inr s) (fun (_ _ : unit) => inr tt) (fun _ _ _ _ _ _ => inr tt)
    (example_head true true) ([[[[1]]]; [[[2]]]]%R, tt, tt, tt) (@nil unit) None
  = (_ <- head_outputs (fun _ _ _ => inr tt) (fun _ _ _ => inr tt)
            (fun _ => (1%nat, 1%nat)) (fun s _ => inr s)
            (example_head true true) [[[[1]]]; [[[2]]]]%R tt tt tt (@nil unit) ;;
     raise AssertionError).
Proof.
  apply (proj1 (training_assert_after_head_outputs _ _ _ _ _ _
                  (example_head true true) _ tt tt tt (@nil unit) None
                  eq_refl (or_introl eq_refl))).
Defined.

Lemma boxes_in_unit_interval_witness :
  exists log bx lg sg,
    forward (fun _ _ _ => inr tt) (fun _ _ _ => inr tt) (fun _ => (1%nat, 1%nat))
      (fun s _ => inr s) (fun (_ _ : unit) => inr tt) (fun _ _ _ _ _ _ => inr tt)
      (example_head false true) ([[[[1]]]; [[[-3]]]]%R, tt, tt, tt) (@nil unit) None
    = (log, inr (Predictions bx lg sg)) /\
    Forall (Forall (Forall (fun v => (0 <= v <= 1)%R))) bx.
Proof.
  do 4 eexists. split; [reflexivity|].
  eapply (proj2 (boxes_in_unit_interval (fun _ _ _ => inr tt) (fun _ _ _ => inr tt)
            (fun _ => (1%nat, 1%nat)) (fun s _ => inr s) (fun (_ _ : unit) => inr tt)
            (fun _ _ _ _ _ _ => inr tt) (example_head false true)
            [[[[1]]]; [[[-3]]]]%R tt tt tt (@nil unit)) None);
    reflexivity.
Defined.

Lemma inference_returns_last_layer_witness :
  exists log out,
    forward (fun _ _ _ => inr tt) (fun _ _ _ => inr tt) (fun _ => (1%nat, 1%nat))
      (fun s _ => inr s) (fun (_ _ : unit) => inr tt) (fun _ _ _ _ _ _ => inr tt)
      (example_head false true) ([[[[1]]]; [[[2]]]]%R, tt, tt, tt) (@nil unit) None
    = (log, inr out) /\
    exists q raw lg sg,
      last_item [[[[1]]]; [[[2]]]]%R = inr q /\
      mapM (mapM (mlp_forward (bbox_head (example_head false true)))) q = inr raw /\
      mapM (mapM (linear_apply (score_head (example_head false true)))) q = inr lg /\
      out = Predictions (map (map (map sigmoid)) raw) lg sg /\
      (with_mask_head (example_head false true) = false -> sg = None) /\
      (with_mask_head (example_head false true) = true -> exists s, sg = Some s).
Proof.
  do 2 eexists. split; [reflexivity|].
  eapply (inference_returns_last_layer (fun _ _ _ => inr tt) (fun _ _ _ => inr tt)
            (fun _ => (1%nat, 1%nat)) (fun s _ => inr s) (fun (_ _ : unit) => inr tt)
            (fun _ _ _ _ _ _ => inr tt) (example_head false true)
            [[[[1]]]; [[[2]]]]%R tt tt tt (@nil unit) None);
    reflexivity.
Defined.

(** Two stacks of decoder outputs that share their last layer [[[2]]]
    but differ before it. *)
Lemma inference_ignores_earlier_layers_witness :
  forward (fun _ _ _ => inr tt) (fun _ _ _ => inr tt) (fun _ => (1%nat, 1%nat))
    (fun s _ => inr s) (fun (_ _ : unit) => inr tt) (fun _ _ _ _ _ _ => inr tt)
    (example_head false true) ([[[[5]]]; [[[7]]]; [[[2]]]]%R, tt, tt, tt) (@nil unit) None
  = forward (fun _ _ _ => inr tt) (fun _ _ _ => inr tt) (fun _ => (1%nat, 1%nat))
    (fun s _ => inr s) (fun (_ _ : unit) => inr tt) (fun _ _ _ _ _ _ => inr tt)
    (example_head false true) ([[[[2]]]]%R, tt, tt, tt) (@nil unit) None.
Proof.
  apply (inference_ignores_earlier_layers (fun _ _ _ => inr tt) (fun _ _ _ => inr tt)
           (fun _ => (1%nat, 1%nat)) (fun s _ => inr s) (fun (_ _ : unit) => inr tt)
           (fun _ _ _ _ _ _ => inr tt) (example_head false true)
           [[[[5]]]; [[[7]]]; [[[2]]]]%R [[[[2]]]]%R tt tt tt (@nil unit) None None
           1 1 1);
    [reflexivity | repeat constructor | repeat constructor
    | discriminate | discriminate | reflexivity].
Defined.

End DetrHeadFacts.

(* ------------------------------------------------------------------ *)
Module GtMaskFacts.
Import Py GtMask.


Lemma zsum_bounds : forall l,
  Forall (fun v => v = 0%Z \/ v = 1%Z) l -> (0 <= zsum l <= Z.of_nat (length l))%Z.
Proof.
  induction l as [|v l IH]; intro H; [cbn; lia|].
  change (zsum (v :: l)) with (v + zsum l)%Z.
  rewrite length_cons, Nat2Z.inj_succ.
  inversion H as [|? ? Hv Hl]; subst. specialize (IH Hl). destruct Hv; subst; lia.
Qed.

Lemma column0_ok : forall padding Wp,
  (0 < Wp)%nat ->
  Forall (fun row => length row = Wp /\
                     Forall (fun v => v = 0%Z \/ v = 1%Z) row) padding ->
  exists c, column0 padding = inr c /\ length c = length padding /\
            Forall (fun v => v = 0%Z \/ v = 1%Z) c.
Proof.
  intros padding Wp HW. induction padding as [|row padding IH]; intro H.
  - exists []. repeat split. constructor.
  - inversion H as [|? ? [Hlen H01] Hrest]; subst.
    destruct IH as [c [Hc [Hl Hf]]]; [exact Hrest|].
    destruct row as [|v row]; [cbn in HW; lia|].
    exists (v :: c). unfold column0 in *. cbn. rewrite Hc. cbn.
    split; [reflexivity|]. split; [cbn; lia|].
    inversion H01; subst. constructor; assumption.
Qed.

Lemma slice_len_in_range : forall n e,
  (0 <= e <= Z.of_nat n)%Z -> slice_len n e = Z.to_nat e.
Proof.
  intros n e H. unfold slice_len.
  destruct (Z.ltb_spec e 0); [lia|]. lia.
Qed.

Section Law.
Context {Poly RLE : Type}.
Variable frPyObjects : Poly -> Z -> Z -> res (list RLE).
Variable merge : list RLE -> res RLE.
Variable decode : RLE -> res arr2.

Local Abbreviation RAST := (rasterize frPyObjects merge decode).

(** [mask_util.decode] returns a [height x width] array. *)
Hypothesis rasterize_shape : forall p h w g,
  (0 <= h)%Z -> (0 <= w)%Z -> RAST p h w = inr g ->
  a_rows g = Z.to_nat h /\ a_cols g = Z.to_nat w.

Lemma mapM_rasterize : forall (ps : list Poly) h w,
  (forall p, In p ps -> exists g, RAST p h w = inr g) ->
  exists gs, mapM (fun p => RAST p h w) ps = inr gs /\
    length gs = length ps /\
    (forall o p, nth_error ps o = Some p -> exists g,
        nth_error gs o = Some g /\ RAST p h w = inr g) /\
    Forall (fun g => exists p, RAST p h w = inr g) gs.
Proof.
  intros ps h w. induction ps as [|p ps IH]; intro H.
  - exists []. split; [reflexivity|]. split; [reflexivity|].
    split; [intros [|o] q Hq; discriminate | constructor].
  - destruct (H p (or_introl eq_refl)) as [g Hg].
    destruct IH as [gs [Hm [Hl [Hn Hf]]]]; [intros q Hq; apply H; right; exact Hq|].
    exists (g :: gs). cbn. rewrite Hg. cbn. rewrite Hm. cbn.
    split; [reflexivity|]. split; [cbn; lia|]. split.
    + intros [|o] q Hq; cbn in Hq.
      * injection Hq as <-. exists g. split; [reflexivity | exact Hg].
      * exact (Hn o q Hq).
    + constructor; [exists p; exact Hg | exact Hf].
Qed.

(** One image with at least one object: its entry is the zero array of
    the padded size with the rasters of its objects in the top-left
    [height x width] corner. *)
Lemma image_mask_layout : forall Hp Wp (polys : list Poly) padding,
  (0 < Hp)%nat -> (0 < Wp)%nat -> padding_ok Hp Wp padding -> polys <> [] ->
  (forall c r p, column0 padding = inr c -> row0 padding = inr r -> In p polys ->
     exists g, RAST p (zsum c) (zsum r) = inr g) ->
  exists c r t,
    column0 padding = inr c /\ row0 padding = inr r /\
    image_mask frPyObjects merge decode Hp Wp polys padding = inr t /\
    (0 <= zsum c <= Z.of_nat Hp)%Z /\ (0 <= zsum r <= Z.of_nat Wp)%Z /\
    d0 t = length polys /\ d1 t = Hp /\ d2 t = Wp /\
    (forall o p g y x, nth_error polys o = Some p ->
       RAST p (zsum c) (zsum r) = inr g ->
       at3 t o y x =
         if (Z.of_nat y <? zsum c)%Z && (Z.of_nat x <? zsum r)%Z
         then a_at g y x else 0%R).
Proof.
  intros Hp Wp polys padding HH HW [Hlen Hrows] Hne Hras.
  destruct (column0_ok padding Wp HW Hrows) as [c [Hc [Hcl Hc01]]].
  destruct padding as [|r rest]; [cbn in Hlen; lia|].
  destruct (Forall_inv Hrows) as [Hr0l Hr001].
  assert (Hr : row0 (r :: rest) = inr r) by reflexivity.
  pose proof (zsum_bounds c Hc01) as Bc. pose proof (zsum_bounds r Hr001) as Br.
  rewrite Hcl, Hlen in Bc. rewrite Hr0l in Br.
  destruct (mapM_rasterize polys (zsum c) (zsum r)
              (fun p Hp' => Hras c r p Hc Hr Hp')) as [gs [Hm [Hgl [Hgn Hgf]]]].
  destruct gs as [|g0 gs']; [destruct polys; [congruence | discriminate]|].
  assert (Hshape : forall g, In g (g0 :: gs') ->
            a_rows g = Z.to_nat (zsum c) /\ a_cols g = Z.to_nat (zsum r)).
  { intros g Hg. rewrite Forall_forall in Hgf. destruct (Hgf g Hg) as [p Hp'].
    apply (rasterize_shape p); [lia | lia | exact Hp']. }
  assert (Hstack : stack (g0 :: gs') =
    inr {| d0 := length (g0 :: gs'); d1 := a_rows g0; d2 := a_cols g0;
           at3 := fun o y x => a_at (nth o (g0 :: gs') g0) y x |}).
  { unfold stack.
    replace (forallb _ (g0 :: gs')) with true; [reflexivity|].
    symmetry. apply forallb_forall. intros g Hg.
    destruct (Hshape g Hg) as [E1 E2].
    destruct (Hshape g0 (or_introl eq_refl)) as [F1 F2].
    rewrite E1, E2, F1, F2, !Nat.eqb_refl. reflexivity. }
  destruct (Hshape g0 (or_introl eq_refl)) as [F1 F2].
  exists c, r.
  eexists. split; [exact Hc|]. split; [exact Hr|]. split.
  { unfold image_mask. rewrite Hc. cbn [res_bind]. rewrite Hr. cbn [res_bind].
    rewrite Hm. cbn [res_bind]. rewrite Hstack. cbn [res_bind].
    unfold paste. cbn [d1 d2].
    rewrite F1, F2, (slice_len_in_range Hp (zsum c)), (slice_len_in_range Wp (zsum r))
      by lia.
    rewrite !Nat.eqb_refl. reflexivity. }
  split; [exact Bc|]. split; [exact Br|].
  cbn [d0 d1 d2 at3]. split; [exact Hgl|]. split; [reflexivity|].
  split; [reflexivity|].
  intros o p g y x Ho Hg.
  destruct (Hgn o p Ho) as [g' [Hg'o Hg']]. rewrite Hg in Hg'.
  injection Hg' as <-. rewrite (nth_error_nth _ _ g0 Hg'o).
  destruct (Nat.ltb_spec y (Z.to_nat (zsum c))), (Z.ltb_spec (Z.of_nat y) (zsum c));
    try lia;
  destruct (Nat.ltb_spec x (Z.to_nat (zsum r))), (Z.ltb_spec (Z.of_nat x) (zsum r));
    try lia; reflexivity.
Qed.

Lemma pad_shape_ok : forall Hp Wp padding pm,
  (0 < Hp)%nat -> Forall (padding_ok Hp Wp) (padding :: pm) ->
  pad_shape (padding :: pm) = (Hp, Wp).
Proof.
  intros Hp Wp padding pm HH H. destruct (Forall_inv H) as [Hl Hrows].
  destruct padding as [|r rest]; [cbn in Hl; lia|].
  destruct (Forall_inv Hrows) as [Hr _]. cbn. cbn in Hl. rewrite Hl, Hr. reflexivity.
Qed.

Lemma images_layout : forall Hp Wp (gt_poly : list (list Poly)) pad_mask,
  (0 < Hp)%nat -> (0 < Wp)%nat ->
  Forall (padding_ok Hp Wp) pad_mask ->
  Forall (fun polys => polys <> []) gt_poly ->
  (forall i polys padding c r p,
     nth_error gt_poly i = Some polys -> nth_error pad_mask i = Some padding ->
     column0 padding = inr c -> row0 padding = inr r -> In p polys ->
     exists g, RAST p (zsum c) (zsum r) = inr g) ->
  exists out,
    mapM (fun '(polygons, padding) =>
            image_mask frPyObjects merge decode Hp Wp polygons padding)
         (combine gt_poly pad_mask) = inr out /\
    length out = Nat.min (length gt_poly) (length pad_mask) /\
    (forall i polys padding,
       nth_error gt_poly i = Some polys -> nth_error pad_mask i = Some padding ->
       exists c r t,
         column0 padding = inr c /\ row0 padding = inr r /\
         nth_error out i = Some t /\
         (0 <= zsum c <= Z.of_nat Hp)%Z /\ (0 <= zsum r <= Z.of_nat Wp)%Z /\
         d0 t = length polys /\ d1 t = Hp /\ d2 t = Wp /\
         (forall o p g y x, nth_error polys o = Some p ->
            RAST p (zsum c) (zsum r) = inr g ->
            at3 t o y x =
              if (Z.of_nat y <? zsum c)%Z && (Z.of_nat x <? zsum r)%Z
              then a_at g y x else 0%R)).
Proof.
  intros Hp Wp gt_poly. induction gt_poly as [|polys gt IH];
    intros pad_mask HH HW Hpad Hne Hsucc.
  - exists []. split; [reflexivity|]. split; [reflexivity|].
    intros [|i] ? ? Hc; discriminate Hc.
  - destruct pad_mask as [|padding pm].
    + exists []. split; [reflexivity|]. split; [cbn; lia|].
      intros i ? ? _ Hc. destruct i; discriminate Hc.
    + destruct (Forall_inv Hpad) as [Hl Hrows].
      destruct (image_mask_layout Hp Wp polys padding HH HW (Forall_inv Hpad)
                  (Forall_inv Hne)
                  (fun c r p Hc Hr Hin => Hsucc 0%nat polys padding c r p
                                            eq_refl eq_refl Hc Hr Hin))
        as [c [r [t [Hc [Hr [Ht Hrest]]]]]].
      destruct (IH pm HH HW (Forall_inv_tail Hpad) (Forall_inv_tail Hne)
                  (fun i => Hsucc (S i))) as [out [Hm [Hol Hi]]].
      exists (t :: out). cbn [combine mapM]. rewrite Ht. cbn [res_bind].
      rewrite Hm. cbn [res_bind]. split; [reflexivity|].
      split; [cbn; lia|].
      intros [|i] ps pd Hps Hpd; cbn in Hps, Hpd.
      * injection Hps as <-. injection Hpd as <-.
        exists c, r, t. split; [exact Hc|]. split; [exact Hr|].
        split; [reflexivity | exact Hrest].
      * exact (Hi i ps pd Hps Hpd).
Qed.

Lemma mapM_fails_at : forall A B (f : A -> res B) l i a,
  nth_error l i = Some a -> (exists e, f a = inl e) -> exists e, mapM f l = inl e.
Proof.
  intros A B f l. induction l as [|a0 l IH]; intros i a Hi Ha; [destruct i; discriminate|].
  cbn [mapM]. destruct i as [|i].
  - injection Hi as <-. destruct Ha as [e He]. rewrite He. exists e. reflexivity.
  - destruct (f a0) as [e|b]; [exists e; reflexivity|]. cbn [res_bind].
    destruct (IH i a Hi Ha) as [e He]. rewrite He. exists e. reflexivity.
Qed.

Lemma nth_error_combine_some : forall A B (l1 : list A) (l2 : list B) i a b,
  nth_error l1 i = Some a -> nth_error l2 i = Some b ->
  nth_error (combine l1 l2) i = Some (a, b).
Proof.
  intros A B l1. induction l1 as [|a1 l1 IH]; intros [|b2 l2] [|i] a b H1 H2;
    try discriminate; cbn in *.
  - congruence.
  - exact (IH l2 i a b H1 H2).
Qed.

(** An image without objects: once [padding[:, 0]] and [padding[0, :]]
    are read, [paddle.stack([])] raises. *)
Lemma image_mask_no_objects : forall Hp Wp padding c r,
  column0 padding = inr c -> row0 padding = inr r ->
  image_mask frPyObjects merge decode Hp Wp [] padding = inl ShapeError.
Proof.
  intros Hp Wp padding c r Hc Hr. unfold image_mask. rewrite Hc. cbn [res_bind].
  rewrite Hr. reflexivity.
Qed.

Lemma image_mask_no_objects_raises : forall Hp Wp padding,
  exists e, image_mask frPyObjects merge decode Hp Wp [] padding = inl e.
Proof.
  intros Hp Wp padding. unfold image_mask.
  destruct (column0 padding) as [e|c]; [exists e; reflexivity|]. cbn [res_bind].
  destruct (row0 padding) as [e|r]; [exists e; reflexivity|]. cbn [res_bind].
  exists ShapeError. reflexivity.
Qed.

(** ** C9, as the code does it: for a batch [pad_mask] of [Hp x Wp]
    grids of zeros and ones (Hp, Wp > 0) and a list [gt_poly] in which
    every image has at least one object, and when each object's polygons
    rasterize, [get_gt_mask_from_polygons] returns one array per pair
    [zip(gt_poly, pad_mask)] (so [min] of the two lengths).  For image [i]
    with [height] the sum of [padding[:, 0]] and [width] the sum of
    [padding[0, :]], the array has shape [n_objects x Hp x Wp]; its entry
    [o, y, x] is the raster of object [o] at [height x width] where
    [y < height] and [x < width], and 0 elsewhere.  If some image of the
    zip has no objects, the call raises and returns nothing: for that
    image [paddle.stack([])] raises as soon as [padding[:, 0]] and
    [padding[0, :]] have been read (an earlier image, or the reading of
    its padding, may raise first). *)
Theorem gt_mask_layout :
  (forall (gt_poly : list (list Poly)) pad_mask i padding,
     nth_error gt_poly i = Some [] -> nth_error pad_mask i = Some padding ->
     exists e, get_gt_mask_from_polygons frPyObjects merge decode gt_poly pad_mask = inl e) /\
  (forall Hp Wp padding c r,
     column0 padding = inr c -> row0 padding = inr r ->
     image_mask frPyObjects merge decode Hp Wp [] padding = inl ShapeError) /\
  forall (gt_poly : list (list Poly)) pad_mask Hp Wp,
  (0 < Hp)%nat -> (0 < Wp)%nat ->
  Forall (padding_ok Hp Wp) pad_mask ->
  Forall (fun polys => polys <> []) gt_poly ->
  (forall i polys padding c r p,
     nth_error gt_poly i = Some polys -> nth_error pad_mask i = Some padding ->
     column0 padding = inr c -> row0 padding = inr r -> In p polys ->
     exists g, RAST p (zsum c) (zsum r) = inr g) ->
  exists out,
    get_gt_mask_from_polygons frPyObjects merge decode gt_poly pad_mask = inr out /\
    length out = Nat.min (length gt_poly) (length pad_mask) /\
    (forall i polys padding,
       nth_error gt_poly i = Some polys -> nth_error pad_mask i = Some padding ->
       exists c r t,
         column0 padding = inr c /\ row0 padding = inr r /\
         nth_error out i = Some t /\
         (0 <= zsum c <= Z.of_nat Hp)%Z /\ (0 <= zsum r <= Z.of_nat Wp)%Z /\
         d0 t = length polys /\ d1 t = Hp /\ d2 t = Wp /\
         (forall o p g y x, nth_error polys o = Some p ->
            RAST p (zsum c) (zsum r) = inr g ->
            at3 t o y x =
              if (Z.of_nat y <? zsum c)%Z && (Z.of_nat x <? zsum r)%Z
              then a_at g y x else 0%R)).
Proof.
  split; [|split; [exact image_mask_no_objects|]].
  { intros gt_poly pad_mask i padding Hg Hp. unfold get_gt_mask_from_polygons.
    destruct (pad_shape pad_mask) as [Hp' Wp'].
    apply (mapM_fails_at _ _ _ _ i ([], padding)).
    - exact (nth_error_combine_some _ _ _ _ i _ _ Hg Hp).
    - exact (image_mask_no_objects_raises Hp' Wp' padding). }
  intros gt_poly pad_mask Hp Wp HH HW Hpad Hne Hsucc.
  unfold get_gt_mask_from_polygons.
  destruct pad_mask as [|padding pm].
  - exists []. destruct gt_poly; split; try reflexivity;
      (split; [cbn; lia | intros i ? ? _ Hc; destruct i; discriminate Hc]).
  - rewrite (pad_shape_ok Hp Wp padding pm HH Hpad).
    exact (images_layout Hp Wp gt_poly (padding :: pm) HH HW Hpad Hne Hsucc).
Qed.

End Law.

(** ** C9, counterexample: an image without objects makes
    [paddle.stack([])] raise, so no array is returned for it (nor for the
    batch). *)
Lemma gt_mask_empty_image_counterexample :
  get_gt_mask_from_polygons full_frPyObjects first_merge full_decode
    [[]] [[[1; 1]; [1; 1]]]%Z = inl ShapeError.
Proof. reflexivity. Qed.

(** One image, padded to [2 x 3], whose valid region is [1 x 2]. *)
Lemma gt_mask_layout_witness :
  (exists out,
    get_gt_mask_from_polygons full_frPyObjects first_merge full_decode
      [[tt]] [[[1; 1; 0]; [0; 0; 0]]]%Z = inr out /\ length out = 1%nat) /\
  (exists e,
    get_gt_mask_from_polygons full_frPyObjects first_merge full_decode
      [[tt]; []] [[[1; 1]; [1; 0]]; [[1; 1]; [1; 1]]]%Z = inl e).
Proof.
  pose proof (gt_mask_layout full_frPyObjects first_merge full_decode
                (fun p h w g _ _ H => ltac:(injection H as <-; split; reflexivity)))
    as [Hempty [_ Hlayout]].
  split.
  2:{ exact (Hempty [[tt]; []] [[[1; 1]; [1; 0]]; [[1; 1]; [1; 1]]]%Z 1
               [[1; 1]; [1; 1]]%Z eq_refl eq_refl). }
  destruct (Hlayout [[tt]] [[[1; 1; 0]; [0; 0; 0]]]%Z 2 3)
    as [out [Hout [Hlen _]]].
  - lia.
  - lia.
  - unfold padding_ok.
    repeat (apply Forall_cons || apply Forall_nil || split); cbn; lia.
  - repeat constructor. discriminate.
  - intros [|[|i]] polys padding c r p Hp Hpd Hc Hr Hin; try discriminate Hp.
    injection Hp as <-. eexists. reflexivity.
  - exists out. split; [exact Hout | exact Hlen].
Defined.

End GtMaskFacts.

(* ------------------------------------------------------------------ *)
(** * Further properties of the code *)

Module MaskHeadMore.
Import MaskHead MaskHeadFacts.
Local Opaque Nat.div.

(** A mask head built with a 3-level pyramid [fpn_dims = [d1; d2; d3]]
    maps [x : B x C x H x W] and an attention map [B x Q x E x H x W]
    with [C + E = input_dim], and FPN features [B x d_i x H_i x W_i], to
    one mask logit map per (image, query): [B*Q x 1 x H3 x W3], the size
    of the last feature, provided every [GroupNorm] it runs accepts
    [num_groups] for its channel count ([input_dim], [context_dim // 2],
    [// 4], [// 8], [// 16]); otherwise it raises. *)
Theorem mask_head_output_shape :
  forall input_dim d1 d2 d3 context_dim num_groups mh B C Q E H W H1 W1 H2 W2 H3 W3,
  init input_dim [d1; d2; d3] context_dim num_groups = Some mh ->
  C + E = input_dim ->
  forward_shape mh (mk4 B C H W) (mk5 B Q E H W)
    [mk4 B d1 H1 W1; mk4 B d2 H2 W2; mk4 B d3 H3 W3] =
  if forallb (group_norm_ok num_groups)
       [input_dim; context_dim / 2; context_dim / 4; context_dim / 8; context_dim / 16]
  then Some (mk4 (B * Q) 1 H3 W3) else None.
Proof.
  intros input_dim d1 d2 d3 context_dim num_groups mh B C Q E H W H1 W1 H2 W2 H3 W3
    Hi Hc. subst input_dim. injection Hi as <-.
  unfold forward_shape; cbn [q5].
  rewrite concat1_tile_flatten; cbn [conv0 conv_inter conv_out adapter]. cbn.
  run_mask_head; reflexivity.
Qed.

(** The forward pass of any constructed mask head raises when [x] and
    the attention map disagree on the batch size (with at least one
    query), on the height or on the width, or when their channels do not
    add up to [input_dim]. *)
Theorem mask_head_rejects_mismatched_inputs :
  forall input_dim fpn_dims context_dim num_groups mh x attn fpns,
  init input_dim fpn_dims context_dim num_groups = Some mh ->
  ((0 < q5 attn /\ n4 x <> b5 attn) \/ h4 x <> h5 attn \/ w4 x <> w5 attn \/
   c4 x + e5 attn <> input_dim) ->
  forward_shape mh x attn fpns = None.
Proof.
  intros input_dim fpn_dims context_dim num_groups mh [xn xc xh xw] [b q e ah aw]
    fpns Hi Hbad. unfold init in Hi.
  destruct (make_adapters _ 0 fpn_dims); [|discriminate]. injection Hi as <-.
  unfold forward_shape, concat1_shape; cbn in *.
  destruct (Nat.eqb_spec (xn * q) (b * q)) as [Hn|Hn]; cbn; [|reflexivity].
  destruct (Nat.eqb_spec xh ah) as [Hh|Hh]; cbn; [|reflexivity].
  destruct (Nat.eqb_spec xw aw) as [Hw|Hw]; cbn; [|reflexivity].
  assert (Hce : xc + e <> input_dim).
  { destruct Hbad as [[Hq Hb]|[Hb|[Hb|Hb]]]; try contradiction; [|exact Hb].
    exfalso. apply Hb. apply (Nat.mul_cancel_r xn b q); lia. }
  rewrite block_bad by exact Hce. reflexivity.
Qed.

Lemma nth_concat_rect : forall A (l : list (list A)) Q b q d,
  Forall (fun a => length a = Q) l -> b < length l -> q < Q ->
  nth (b * Q + q) (concat l) d = nth q (nth b l []) d.
Proof.
  intros A l Q. induction l as [|a l IH]; intros b q d HF Hb Hq; [cbn in Hb; lia|].
  inversion HF as [|? ? Ha Hl]; subst. cbn [concat].
  destruct b as [|b].
  - cbn. rewrite app_nth1 by lia. reflexivity.
  - rewrite app_nth2 by lia.
    replace (S b * length a + q - length a) with (b * length a + q) by lia.
    apply IH; [exact Hl | cbn in Hb; lia | exact Hq].
Qed.

Lemma length_concat_rect : forall A (l : list (list A)) Q,
  Forall (fun a => length a = Q) l -> length (concat l) = length l * Q.
Proof.
  intros A l Q HF. induction HF as [|a l Ha Hl IH]; [reflexivity|].
  cbn [concat]. rewrite length_app, IH, Ha. cbn. lia.
Qed.

Lemma nth_tile0 : forall A (x : list A) reps r d,
  x <> [] -> r < length x * reps -> nth r (tile0 reps x) d = nth (r mod length x) x d.
Proof.
  intros A x reps. induction reps as [|reps IH]; intros r d Hx Hr; [lia|].
  unfold tile0 in *. cbn [repeat concat]. rewrite Nat.mul_succ_r in Hr.
  assert (0 < length x) by (destruct x; [congruence | cbn; lia]).
  destruct (Nat.ltb_spec r (length x)).
  - rewrite app_nth1 by lia. rewrite Nat.mod_small by lia. reflexivity.
  - rewrite app_nth2 by lia. rewrite IH by (assumption || lia).
    f_equal. rewrite <- (Nat.Div0.mod_add (r - length x) 1 (length x)).
    f_equal. lia.
Qed.

Lemma length_tile0 : forall A (x : list A) reps, length (tile0 reps x) = reps * length x.
Proof.
  intros A x reps. unfold tile0. induction reps as [|reps IH]; [reflexivity|].
  cbn [repeat concat]. rewrite length_app, IH. lia.
Qed.

(** The first fusion step on values, for any batch: with [B] images of
    which [x] gives the channel planes and the attention map [Q] query
    entries each, the fused batch has [B*Q] images and image [b*Q + q]
    is the channels of [x[(b*Q + q) mod B]] followed by the attention
    planes of query [q] of image [b].  For [B = 1] every query is paired
    with its own image. *)
Theorem fuse_rows :
  forall P (x : list (list P)) (attn : list (list (list P))) B Q,
  length x = B -> length attn = B -> 0 < B ->
  Forall (fun a => length a = Q) attn ->
  exists rows, fuse x attn = Some rows /\ length rows = B * Q /\
    forall b q, b < B -> q < Q ->
      nth_error rows (b * Q + q) =
        Some (nth ((b * Q + q) mod B) x [] ++ nth q (nth b attn []) []).
Proof.
  intros P x attn B Q Hx Ha HB HF.
  assert (HQ : num_queries attn = Q).
  { destruct attn as [|a attn]; [cbn in Ha; lia|]. inversion HF; subst. reflexivity. }
  assert (Hlt : length (tile0 Q x) = length (concat attn)).
  { rewrite length_tile0, (length_concat_rect _ _ Q HF). lia. }
  unfold fuse, concat_channels. rewrite HQ, Hlt, Nat.eqb_refl.
  eexists. split; [reflexivity|].
  rewrite length_map, length_combine, Hlt, Nat.min_id,
          (length_concat_rect _ _ Q HF), Ha.
  split; [reflexivity|].
  intros b q Hb Hq.
  assert (Hr : b * Q + q < B * Q) by nia.
  rewrite nth_error_map.
  rewrite (nth_error_nth' (combine (tile0 Q x) (concat attn)) ([], [])).
  2: { rewrite length_combine, Hlt, Nat.min_id, (length_concat_rect _ _ Q HF); lia. }
  cbn [option_map]. rewrite combine_nth by exact Hlt.
  rewrite nth_tile0 by (try (destruct x; cbn in Hx; [lia | discriminate]); lia).
  rewrite (nth_concat_rect _ _ Q) by (try exact HF; lia).
  rewrite Hx. reflexivity.
Qed.

Lemma mask_head_output_shape_witness :
  (exists mh, init 264 [1024; 512; 256] 256 8 = Some mh /\
   forward_shape mh (mk4 2 256 10 10) (mk5 2 5 8 10 10)
     [mk4 2 1024 20 20; mk4 2 512 40 40; mk4 2 256 80 80] = Some (mk4 (2 * 5) 1 80 80)) /\
  (exists mh, init 72 [256; 128; 64] 64 8 = Some mh /\
   forward_shape mh (mk4 1 64 2 2) (mk5 1 1 8 2 2)
     [mk4 1 256 4 4; mk4 1 128 8 8; mk4 1 64 16 16] = None).
Proof.
  split.
  - destruct (init 264 [1024; 512; 256] 256 8) as [mh|] eqn:E; [|discriminate].
    exists mh. split; [reflexivity|].
    exact (mask_head_output_shape 264 1024 512 256 256 8 mh 2 256 5 8 10 10
             20 20 40 40 80 80 E eq_refl).
  - destruct (init 72 [256; 128; 64] 64 8) as [mh|] eqn:E; [|discriminate].
    exists mh. split; [reflexivity|].
    exact (mask_head_output_shape 72 256 128 64 64 8 mh 1 64 1 8 2 2
             4 4 8 8 16 16 E eq_refl).
Defined.

Lemma mask_head_rejects_mismatched_inputs_witness :
  exists mh, init 264 [1024; 512; 256] 256 8 = Some mh /\
  forward_shape mh (mk4 2 200 10 10) (mk5 2 5 8 10 10)
    [mk4 2 1024 20 20; mk4 2 512 40 40; mk4 2 256 80 80] = None.
Proof.
  destruct (init 264 [1024; 512; 256] 256 8) as [mh|] eqn:E; [|discriminate].
  exists mh. split; [reflexivity|].
  apply (mask_head_rejects_mismatched_inputs 264 [1024; 512; 256] 256 8 mh
           (mk4 2 200 10 10) (mk5 2 5 8 10 10) _ E).
  right. right. right. cbn. lia.
Defined.

Lemma fuse_rows_witness :
  exists rows, fuse [[10]; [11]] [[[20]; [21]]; [[22]; [23]]] = Some rows /\
    length rows = 2 * 2 /\
    forall b q, b < 2 -> q < 2 ->
      nth_error rows (b * 2 + q) =
        Some (nth ((b * 2 + q) mod 2) [[10]; [11]] [] ++
              nth q (nth b [[[20]; [21]]; [[22]; [23]]] []) []).
Proof.
  apply (fuse_rows nat [[10]; [11]] [[[20]; [21]]; [[22]; [23]]] 2 2);
    [reflexivity | reflexivity | lia | repeat constructor].
Defined.

End MaskHeadMore.

Module AttentionMapMore.
Import RealOps RealFacts AttentionMap.
Local Open Scope R_scope.

Lemma rsum_scale : forall n a f, rsum n (fun j => a * f j) = a * rsum n f.
Proof. induction n as [|n IH]; intros a f; cbn; [ring | rewrite IH; ring]. Qed.

Lemma head_row_div : forall b n hd, (hd < n)%nat -> ((b * n + hd) / n)%nat = b.
Proof. intros b n hd H. symmetry. apply (Nat.div_unique _ _ _ hd); lia. Qed.

Lemma head_row_mod : forall b n hd, (hd < n)%nat -> ((b * n + hd) mod n)%nat = hd.
Proof. intros b n hd H. symmetry. apply (Nat.mod_unique _ _ b); lia. Qed.

Lemma softmax_flat_spatial_local : forall h w (L L' : T5) b qi hd,
  (forall y x, L b qi hd y x = L' b qi hd y x) ->
  forall y x, softmax_flat_spatial h w L b qi hd y x =
              softmax_flat_spatial h w L' b qi hd y x.
Proof.
  intros h w L L' b qi hd H y x.
  assert (E : L b qi hd = L' b qi hd).
  { apply functional_extensionality; intro y'.
    apply functional_extensionality; intro x'. apply H. }
  unfold softmax_flat_spatial. cbv beta zeta. rewrite E. reflexivity.
Qed.

Lemma softmax_flat_spatial_shift : forall h w (L : T5) (c : nat -> nat -> nat -> R)
    b qi hd y x,
  softmax_flat_spatial h w (fun b qi hd y x => L b qi hd y x + c b qi hd) b qi hd y x =
  softmax_flat_spatial h w L b qi hd y x.
Proof.
  intros h w L c b qi hd y x. unfold softmax_flat_spatial. cbv beta zeta.
  rewrite (rsum_ext (h * w)
             (fun j => exp (L b qi hd (j / w)%nat (j mod w)%nat + c b qi hd))
             (fun j => exp (c b qi hd) * exp (L b qi hd (j / w)%nat (j mod w)%nat))).
  2: { intros j _. rewrite exp_plus. ring. }
  rewrite rsum_scale, exp_plus. unfold Rdiv. rewrite Rinv_mult.
  assert (Hc : exp (c b qi hd) <> 0) by (apply Rgt_not_eq, exp_pos).
  replace (exp (L b qi hd ((y * w + x) / w)%nat ((y * w + x) mod w)%nat) *
           exp (c b qi hd) *
           (/ exp (c b qi hd) *
            / rsum (h * w) (fun j => exp (L b qi hd (j / w)%nat (j mod w)%nat))))
    with (exp (L b qi hd ((y * w + x) / w)%nat ((y * w + x) mod w)%nat) *
          / rsum (h * w) (fun j => exp (L b qi hd (j / w)%nat (j mod w)%nat)) *
          (exp (c b qi hd) * / exp (c b qi hd))) by ring.
  rewrite Rinv_r by exact Hc. ring.
Qed.

(** Each (image, query) pair is attended to on its own: with the same
    parameters, the pre-dropout weights of image [b] and query [qi] (for
    every head) depend only on that query's features [q[b, qi]], on the
    keys of image [b] and on the mask entries of [(b, qi)]; the other
    images and queries of the batch play no part. *)
Theorem attention_per_image_query :
  forall (m : MultiHeadAttentionMap) h w (q q' : T3) (k k' : T4)
         (mask mask' : option T5) b qi,
  reshape_ok m = true ->
  (forall e, q b qi e = q' b qi e) ->
  (forall e y x, k b e y x = k' b e y x) ->
  (mask = None /\ mask' = None \/
   exists mk mk', mask = Some mk /\ mask' = Some mk' /\
     forall hd y x, mk b qi hd y x = mk' b qi hd y x) ->
  exists W W', weights_pre_dropout m h w q k mask = Some W /\
    weights_pre_dropout m h w q' k' mask' = Some W' /\
    forall hd y x, (hd < num_heads m)%nat -> W b qi hd y x = W' b qi hd y x.
Proof.
  intros m h w q q' k k' mask mask' b qi Hok Hq Hk Hmask.
  unfold weights_pre_dropout. rewrite Hok.
  do 2 eexists. split; [reflexivity|]. split; [reflexivity|].
  intros hd y x Hhd. apply softmax_flat_spatial_local. clear y x. intros y x.
  assert (EQ : q b qi = q' b qi) by (apply functional_extensionality; exact Hq).
  assert (EK : k b = k' b).
  { apply functional_extensionality; intro e.
    apply functional_extensionality; intro y'.
    apply functional_extensionality; intro x'. apply Hk. }
  destruct Hmask as [[-> ->]|[mk [mk' [-> [-> Hm]]]]];
    unfold attention_logits, q_proj, k_proj; cbv beta zeta iota;
    rewrite (head_row_div b (num_heads m) hd Hhd), (head_row_mod b (num_heads m) hd Hhd);
    rewrite EQ, EK; [reflexivity|].
  rewrite Hm. reflexivity.
Qed.

(** Adding to the mask (or, without a mask, passing as mask) a value that
    depends only on (image, query, head) and not on the spatial position
    leaves the attention weights unchanged: the softmax over [h*w] is
    invariant under such a shift. *)
Theorem attention_mask_shift_invariant :
  forall (m : MultiHeadAttentionMap) h w (q : T3) (k : T4)
         (c : nat -> nat -> nat -> R) (mo : option T5),
  let shifted : T5 :=
    match mo with
    | None => fun b qi hd _ _ => c b qi hd
    | Some mk => fun b qi hd y x => mk b qi hd y x + c b qi hd
    end in
  forall b qi hd y x,
  option_map (fun W => W b qi hd y x) (weights_pre_dropout m h w q k (Some shifted)) =
  option_map (fun W => W b qi hd y x) (weights_pre_dropout m h w q k mo).
Proof.
  intros m h w q k c mo shifted b qi hd y x.
  unfold weights_pre_dropout. destruct (reshape_ok m); [|reflexivity]. cbn [option_map].
  f_equal.
  assert (E : attention_logits m w q k (Some shifted) =
              fun b qi hd y x => attention_logits m w q k mo b qi hd y x + c b qi hd).
  { repeat (apply functional_extensionality; intro).
    unfold shifted, attention_logits. destruct mo; cbv beta zeta; ring. }
  rewrite E. apply softmax_flat_spatial_shift.
Qed.

(** When [forward] runs, [normalize_fact = float(hidden_dim / num_heads) ** -0.5]
    is [1 / sqrt c] for the per-head size [c = hidden_dim // num_heads]
    used by the reshapes. *)
Theorem normalize_fact_head_dim :
  forall m : MultiHeadAttentionMap,
  reshape_ok m = true ->
  normalize_fact m = / sqrt (INR (hidden_dim m / num_heads m)).
Proof.
  intros m H. unfold reshape_ok in H. apply andb_prop in H. destruct H as [H1 H2].
  apply Nat.ltb_lt in H1. apply Nat.eqb_eq in H2.
  unfold normalize_fact. f_equal. f_equal.
  rewrite <- H2 at 1. rewrite mult_INR. field.
  apply not_0_INR. lia.
Qed.

(** Query 1 of image 0 has the same features in both batches; query 0
    and image 1 differ. *)
Lemma attention_per_image_query_witness :
  exists W W',
    weights_pre_dropout example_map 2 2 (fun b qi _ => INR (b + qi))
      (fun _ _ _ _ => 1) None = Some W /\
    weights_pre_dropout example_map 2 2
      (fun b qi e => if (Nat.eqb b 0 && Nat.eqb qi 1)%bool then INR (b + qi) else 5)
      (fun _ _ _ _ => 1) None = Some W' /\
    forall hd y x, (hd < num_heads example_map)%nat -> W 0%nat 1%nat hd y x = W' 0%nat 1%nat hd y x.
Proof.
  apply (attention_per_image_query example_map 2 2 _ _ _ _ None None 0 1);
    [reflexivity | intro e; reflexivity | intros e y x; reflexivity
    | left; split; reflexivity].
Defined.

Lemma normalize_fact_head_dim_witness :
  normalize_fact example_map = / sqrt (INR (hidden_dim example_map / num_heads example_map)).
Proof. apply normalize_fact_head_dim. reflexivity. Defined.

End AttentionMapMore.

Module LayersMore.
Import Py RealOps Layers.
Local Open Scope R_scope.

(** With [num_layers <= 1] (including 0 and negative values, where
    [[hidden_dim] * (num_layers - 1)] is empty), [MLP.__init__] builds a
    single [input_dim -> output_dim] layer and [forward] is that layer
    alone, with no ReLU. *)
Theorem mlp_at_most_one_layer :
  forall input_dim hidden_dim output_dim (nl : Z),
  (nl <= 1)%Z ->
  mlp_dims input_dim hidden_dim output_dim nl = [(input_dim, output_dim)] /\
  forall l x, mlp_forward {| num_layers := nl; layers := [l] |} x = linear_apply l x.
Proof.
  intros input_dim hidden_dim output_dim nl Hnl. split.
  - unfold mlp_dims. replace (Z.to_nat (nl - 1)) with 0%nat by lia. reflexivity.
  - intros l x. unfold mlp_forward. cbn [num_layers layers mlp_go].
    destruct (linear_apply l x) as [e|y]; [reflexivity|]. cbn [res_bind].
    replace (Z.ltb 0 (nl - 1)) with false by (symmetry; apply Z.ltb_ge; lia).
    reflexivity.
Qed.

(** An [MLP] built for [input_dim] features raises a shape error, in its
    first layer, on an input of any other width. *)
Theorem mlp_rejects_wrong_width :
  forall input_dim hidden_dim output_dim (m : MLP) (x : list R),
  Forall2 linear_dims (layers m) (mlp_dims input_dim hidden_dim output_dim (num_layers m)) ->
  length x <> input_dim ->
  mlp_forward m x = inl ShapeError.
Proof.
  intros input_dim hidden_dim output_dim m x HF Hx.
  assert (HD : exists o' rest,
    mlp_dims input_dim hidden_dim output_dim (num_layers m) = (input_dim, o') :: rest).
  { unfold mlp_dims. destruct (Z.to_nat (num_layers m - 1)); cbn; eauto. }
  destruct HD as [o' [rest HD]]. rewrite HD in HF.
  unfold mlp_forward.
  destruct (layers m) as [|l ls]; inversion HF as [|? ? ? ? Hl _]; subst.
  destruct Hl as [Hw _]. cbn in Hw.
  cbn [mlp_go]. unfold linear_apply.
  destruct (Nat.eqb_spec (length x) (length (lin_w l))) as [E|E]; [|reflexivity].
  congruence.
Qed.

Lemma mlp_at_most_one_layer_witness :
  mlp_dims 3 5 4 0 = [(3%nat, 4%nat)] /\
  forall l x, mlp_forward {| num_layers := 0; layers := [l] |} x = linear_apply l x.
Proof. apply mlp_at_most_one_layer. lia. Defined.

Lemma mlp_rejects_wrong_width_witness :
  mlp_forward {| num_layers := 1; layers := [{| lin_w := [[1]]; lin_b := [0] |}] |}
    [1; 2] = inl ShapeError.
Proof.
  apply (mlp_rejects_wrong_width 1 7 1); [cbn; repeat constructor | discriminate].
Defined.

End LayersMore.

Module DetrHeadMore.
Import Py RealOps RealFacts Layers LayersFacts DetrHead DetrHeadFacts.
Local Open Scope string_scope.

Local Notation "x <- m ;; k" := (bind m (fun x => k))
  (at level 61, m at next level, right associativity).

Lemma mapM_ok_Forall : forall A B (g : A -> res B) (P : A -> Prop) (P' : B -> Prop) l,
  (forall a, P a -> exists b, g a = inr b /\ P' b) -> Forall P l ->
  exists l', mapM g l = inr l' /\ Forall P' l' /\ length l' = length l.
Proof.
  intros A B g P P' l Hg HF. induction HF as [|a l Ha Hl IH].
  - exists []. split; [reflexivity|]. split; [constructor | reflexivity].
  - destruct (Hg a Ha) as [b [Hb HPb]]. destruct IH as [l' [Hm [HF' Hlen]]].
    exists (b :: l'). cbn. rewrite Hb. cbn. rewrite Hm. cbn.
    split; [reflexivity|]. split; [constructor; assumption | cbn; lia].
Qed.

Lemma apply_last_ok : forall f t B Q D K,
  (forall x, length x = D -> exists y, f x = inr y /\ length y = K) ->
  is_tensor4 t B Q D ->
  exists t', apply_last f t = inr t' /\ is_tensor4 t' B Q K /\ length t' = length t.
Proof.
  intros f t B Q D K Hf Ht. unfold apply_last, is_tensor4 in *.
  assert (Hbq : forall bq, Forall (fun v => length v = D) bq /\ length bq = Q ->
            exists bq', mapM f bq = inr bq' /\
              (Forall (fun v => length v = K) bq' /\ length bq' = Q)).
  { intros bq [Hbq HQ].
    destruct (mapM_ok_Forall _ _ f _ (fun v => length v = K) bq Hf Hbq)
      as [bq' [Hm' [HF' Hlen']]].
    exists bq'. split; [exact Hm'|]. split; [exact HF' | congruence]. }
  assert (Hlay : forall layer,
            Forall (fun bq => Forall (fun v => length v = D) bq /\ length bq = Q) layer /\
            length layer = B ->
            exists layer', mapM (mapM f) layer = inr layer' /\
              (Forall (fun bq => Forall (fun v => length v = K) bq /\ length bq = Q) layer' /\
               length layer' = B)).
  { intros layer [Hl HB].
    destruct (mapM_ok_Forall _ _ (mapM f) _ _ layer Hbq Hl) as [layer' [Hm [HF Hlen]]].
    exists layer'. split; [exact Hm|]. split; [exact HF | congruence]. }
  exact (mapM_ok_Forall _ _ (mapM (mapM f)) _ _ t Hlay Ht).
Qed.

Lemma last_item_nonempty : forall A (l : list A), l <> [] -> exists x, last_item l = inr x.
Proof.
  intros A l. induction l as [|a l IH]; intro H; [congruence|].
  destruct l as [|b l]; [eexists; reflexivity|].
  apply IH. discriminate.
Qed.

Lemma getitem_missing : forall V (d : dict V) k,
  dict_mem k d = false -> getitem d k = inl (KeyError k).
Proof.
  intros V d k. induction d as [|[k' v] d IH]; intro H; [reflexivity|].
  cbn in *. destruct (String.eqb k k'); [discriminate | exact (IH H)].
Qed.

Lemma getitem_present : forall V (d : dict V) k,
  dict_mem k d = true -> exists v, getitem d k = inr v.
Proof.
  intros V d k. induction d as [|[k' v] d IH]; intro H; [discriminate|].
  cbn in *. destruct (String.eqb k k'); [eexists; reflexivity | exact (IH H)].
Qed.

Lemma fst_bind_Forall : forall A B (P : event -> Prop) (m : M A) (k : A -> M B),
  Forall P (fst m) -> (forall a, Forall P (fst (k a))) -> Forall P (fst (bind m k)).
Proof.
  intros A B P [l [e|a]] k Hm Hk; cbn in *; [exact Hm|].
  specialize (Hk a). destruct (k a) as [l' r]. cbn in *.
  apply Forall_app; split; assumption.
Qed.

Section More.
Context {Mem Proj Mask Feat Attn Seg GtVal GtMask LossOut : Type}.
Variable bbox_attention : T3 -> Mem -> Mask -> res Attn.
Variable mask_head : Proj -> Attn -> list Feat -> res Seg.
Variable seg_hw : Seg -> nat * nat.
Variable seg_reshape : Seg -> list nat -> res Seg.
Variable get_gt_mask_from_polygons : GtVal -> GtVal -> res GtMask.
Variable loss : T4 -> T4 -> GtVal -> GtVal -> option Seg -> option GtMask -> res LossOut.

Local Abbreviation HO := (head_outputs bbox_attention mask_head seg_hw seg_reshape).
Local Abbreviation FWD := (forward bbox_attention mask_head seg_hw seg_reshape
                         get_gt_mask_from_polygons loss).

(** A head built by [__init__] without the mask branch, in inference
    mode, on non-empty query features [L x B x Q x hidden_dim]: [forward]
    runs the score head and the box head and returns boxes [B x Q x 4]
    with coordinates in [0,1], logits [B x Q x (num_classes + 1)] (or
    [num_classes] with focal loss) and no masks; it never raises, for any
    [num_mlp_layers]. *)
Theorem built_head_inference_shapes :
  forall (h : DETRHead) nc hid nml use_focal feats memory src_proj src_mask
         (body_feats : list Feat) (inputs : option (dict GtVal)) B Q,
  built_by h nc hid nml false use_focal ->
  training h = false ->
  is_tensor4 feats B Q hid -> feats <> [] ->
  exists bx lg,
    FWD h (feats, memory, src_proj, src_mask) body_feats inputs =
      ([EScoreHead; EBboxHead], inr (Predictions bx lg None)) /\
    length bx = B /\
    Forall (fun r => length r = Q /\
      Forall (fun v => length v = 4%nat /\ Forall (fun c => (0 <= c <= 1)%R) v) r) bx /\
    length lg = B /\
    Forall (fun r => length r = Q /\
      Forall (fun v => length v = (if use_focal then nc else nc + 1)%nat) r) lg.
Proof.
  intros h nc hid nml use_focal feats memory src_proj src_mask body_feats inputs B Q
    [Hnc [Hhid [Hwm [Huf [Hsc [Hnl Hbb]]]]]] Ht Hfe Hne.
  destruct (apply_last_ok (linear_apply (score_head h)) feats B Q hid (num_classes h))
    as [ts [Hs [Hts Hlts]]]; [|exact Hfe|].
  { intros x Hx. exact (linear_apply_ok _ _ _ x Hsc Hx). }
  destruct (mlp_dims_facts (Z.to_nat (nml - 1)) hid hid 4) as [_ [Hch [Hout _]]].
  destruct (apply_last_ok (mlp_forward (bbox_head h)) feats B Q hid 4)
    as [tb [Hb [Htb Hltb]]]; [|exact Hfe|].
  { intros x Hx. unfold mlp_forward. rewrite Hnl.
    destruct (mlp_go_ok nml (layers (bbox_head h)) _ 0 hid x Hbb Hch Hx) as [y [Hy Hly]].
    exists y. split; [exact Hy|]. rewrite Hly. exact Hout. }
  destruct (last_item_nonempty _ ts) as [lg Hlg].
  { intro E. subst ts. destruct feats; [congruence | discriminate]. }
  destruct (last_item_nonempty _ tb) as [rb Hrb].
  { intro E. subst tb. destruct feats; [congruence | discriminate]. }
  pose proof (last_item_Forall _ _ _ _ Hts Hlg) as [Hlg1 Hlg2].
  pose proof (last_item_Forall _ _ _ _ Htb Hrb) as [Hrb1 Hrb2].
  exists (map (map (map sigmoid)) rb), lg.
  split.
  { unfold forward, head_outputs. rewrite Hs, Hb, Hwm.
    cbn [bind run ret lift app]. rewrite Ht.
    assert (E : last_item (map (map (map (map sigmoid))) tb) =
                inr (map (map (map sigmoid)) rb)) by (rewrite last_item_map; cbv [T3 T4] in *; rewrite Hrb; reflexivity).
    unfold map4. cbv [T3 T4] in *. rewrite E, Hlg. reflexivity. }
  rewrite length_map. split; [exact Hrb2|].
  split.
  { rewrite Forall_map. refine (Forall_impl _ _ Hrb1). intros bq [Hv HQ].
    rewrite length_map. split; [exact HQ|]. rewrite Forall_map.
    refine (Forall_impl _ _ Hv). intros v Hlv. rewrite length_map.
    split; [exact Hlv|]. rewrite Forall_map. apply Forall_forall.
    intros c _. apply sigmoid_in_01. }
  split; [exact Hlg2|].
  refine (Forall_impl _ _ Hlg1). intros bq [Hv HQ]. split; [exact HQ|].
  rewrite <- Hnc. exact Hv.
Qed.

(** Without the mask branch, [forward] (in either mode) never runs the
    attention map, the mask head or the reshape, and its result does not
    depend on [memory], [src_proj], [src_mask] or [body_feats]. *)
Theorem no_mask_branch_ignores_memory :
  forall (h : DETRHead) feats (m1 m2 : Mem) (p1 p2 : Proj) (s1 s2 : Mask)
         (bf1 bf2 : list Feat) (inputs : option (dict GtVal)),
  with_mask_head h = false ->
  FWD h (feats, m1, p1, s1) bf1 inputs = FWD h (feats, m2, p2, s2) bf2 inputs /\
  Forall (fun e => e <> EBboxAttention /\ e <> EMaskHead /\ e <> EReshape)
    (fst (FWD h (feats, m1, p1, s1) bf1 inputs)).
Proof.
  intros h feats m1 m2 p1 p2 s1 s2 bf1 bf2 inputs Hwm. split.
  - unfold forward, head_outputs. rewrite Hwm. reflexivity.
  - unfold forward. apply fst_bind_Forall.
    + unfold head_outputs. rewrite Hwm.
      apply fst_bind_Forall; [repeat constructor; discriminate | intro lg].
      apply fst_bind_Forall; [repeat constructor; discriminate | intro rb].
      apply fst_bind_Forall; [constructor | intro sg]. constructor.
    + intros [[lg bx] sg]. destruct (training h).
      * destruct inputs as [d|]; [|constructor].
        destruct (dict_mem "gt_bbox" d && dict_mem "gt_class" d); [|constructor].
        apply fst_bind_Forall.
        { destruct (dict_mem "gt_poly" d); [|constructor].
          apply fst_bind_Forall; [constructor | intro p].
          apply fst_bind_Forall; [constructor | intro pm].
          apply fst_bind_Forall; [repeat constructor; discriminate | intro g].
          constructor. }
        intro gm. apply fst_bind_Forall; [constructor | intro gb].
        apply fst_bind_Forall; [constructor | intro gc].
        apply fst_bind_Forall; [repeat constructor; discriminate | intro l].
        constructor.
      * apply fst_bind_Forall; [constructor | intro b].
        apply fst_bind_Forall; [constructor | intro g]. constructor.
Qed.

(** With no decoder layer at all ([feats] empty), [forward] raises
    [IndexError] at [feats[-1]] or [outputs_bbox[-1]], after the score
    and box heads, in inference mode and whenever the mask branch is
    enabled. *)
Theorem empty_decoder_stack_raises :
  forall (h : DETRHead) memory src_proj src_mask (body_feats : list Feat)
         (inputs : option (dict GtVal)),
  training h = false \/ with_mask_head h = true ->
  FWD h ([], memory, src_proj, src_mask) body_feats inputs =
    ([EScoreHead; EBboxHead], inl IndexError).
Proof.
  intros h memory src_proj src_mask body_feats inputs H.
  unfold forward, head_outputs.
  destruct (with_mask_head h), (training h); cbn;
    try reflexivity; destruct H; discriminate.
Qed.

(** Query features whose width differs from the score head's input size
    make [forward] raise a shape error in the score head, before anything
    else runs. *)
Theorem score_head_width_mismatch :
  forall (h : DETRHead) feats memory src_proj src_mask (body_feats : list Feat)
         (inputs : option (dict GtVal)) B Q D,
  is_tensor4 feats B Q D -> feats <> [] -> (0 < B)%nat -> (0 < Q)%nat ->
  D <> length (lin_w (score_head h)) ->
  FWD h (feats, memory, src_proj, src_mask) body_feats inputs =
    ([EScoreHead], inl ShapeError).
Proof.
  intros h feats memory src_proj src_mask body_feats inputs B Q D Hf Hne HB HQ HD.
  destruct feats as [|l0 fs]; [congruence|].
  destruct (Forall_inv Hf) as [Hl0 HlB].
  destruct l0 as [|bq0 l0]; [cbn in HlB; lia|].
  destruct (Forall_inv Hl0) as [Hbq HbQ].
  destruct bq0 as [|v0 bq0]; [cbn in HbQ; lia|].
  assert (Hv0 : length v0 = D) by exact (Forall_inv Hbq).
  assert (Hlin : linear_apply (score_head h) v0 = inl ShapeError).
  { unfold linear_apply. destruct (Nat.eqb_spec (length v0) (length (lin_w (score_head h))));
      [lia | reflexivity]. }
  assert (Hs : apply_last (linear_apply (score_head h)) (((v0 :: bq0) :: l0) :: fs) =
               inl ShapeError).
  { unfold apply_last. cbn [mapM]. rewrite Hlin. reflexivity. }
  unfold forward, head_outputs. cbv [T3 T4] in *. rewrite Hs. reflexivity.
Qed.

(** In training mode, with [gt_bbox] and [gt_class] given and [gt_poly]
    given without [pad_mask], [forward] raises [KeyError('pad_mask')]
    right after the tensor computations of lines 213-225: neither the
    rasteriser nor the loss runs. *)
Theorem training_gt_poly_without_pad_mask :
  forall (h : DETRHead) feats memory src_proj src_mask (body_feats : list Feat) d,
  training h = true ->
  dict_mem "gt_bbox" d = true -> dict_mem "gt_class" d = true ->
  dict_mem "gt_poly" d = true -> dict_mem "pad_mask" d = false ->
  FWD h (feats, memory, src_proj, src_mask) body_feats (Some d) =
    (_ <- HO h feats memory src_proj src_mask body_feats ;; raise (KeyError "pad_mask")).
Proof.
  intros h feats memory src_proj src_mask body_feats d Ht Hb Hc Hp Hm.
  destruct (getitem_present _ d "gt_poly" Hp) as [p Hgp].
  pose proof (getitem_missing _ d "pad_mask" Hm) as Hgm.
  unfold forward.
  destruct (HO h feats memory src_proj src_mask body_feats) as [l [e|[[lg bx] sg]]];
    [reflexivity|].
  cbn. rewrite Ht, Hb, Hc, Hp. cbn. rewrite Hgp. cbn. rewrite Hgm. reflexivity.
Qed.

(** In training mode, with [gt_bbox] and [gt_class] given and no
    [gt_poly], the rasteriser never runs: after lines 213-225, [forward]
    returns [self.loss(boxes, logits, gt_bbox, gt_class, masks,
    gt_mask=None)]. *)
Theorem training_without_gt_poly :
  forall (h : DETRHead) feats memory src_proj src_mask (body_feats : list Feat) d,
  training h = true ->
  dict_mem "gt_bbox" d = true -> dict_mem "gt_class" d = true ->
  dict_mem "gt_poly" d = false ->
  exists gb gc,
    getitem d "gt_bbox" = inr gb /\ getitem d "gt_class" = inr gc /\
    FWD h (feats, memory, src_proj, src_mask) body_feats (Some d) =
      (outs <- HO h feats memory src_proj src_mask body_feats ;;
       let '(lg, bx, sg) := outs in
       l <- run ELoss (loss bx lg gb gc sg None) ;;
       ret (LossValue l)).
Proof.
  intros h feats memory src_proj src_mask body_feats d Ht Hb Hc Hp.
  destruct (getitem_present _ d "gt_bbox" Hb) as [gb Hgb].
  destruct (getitem_present _ d "gt_class" Hc) as [gc Hgc].
  exists gb, gc. split; [exact Hgb|]. split; [exact Hgc|].
  unfold forward.
  destruct (HO h feats memory src_proj src_mask body_feats) as [l [e|[[lg bx] sg]]];
    [reflexivity|].
  cbn. rewrite Ht, Hb, Hc, Hp. cbn. rewrite Hgb. cbn. rewrite Hgc. cbn.
  destruct (loss bx lg gb gc sg None); reflexivity.
Qed.

End More.

Lemma built_head_inference_shapes_witness :
  exists bx lg,
    forward (fun (_ : T3) (_ _ : nat) => inr tt) (fun (_ : nat) (_ : unit) (_ : list nat) => inr tt)
    (fun (_ : unit) => (1%nat, 1%nat)) (fun (s : unit) (_ : list nat) => inr s)
    (fun (_ _ : nat) => inr tt)
    (fun (_ _ : T4) (gb gc : nat) (_ _ : option unit) => inr (gb + gc)%nat)
      (example_head false false) ([[[[3]]]]%R, 1%nat, 2%nat, 3%nat) [4%nat] None =
    ([EScoreHead; EBboxHead], inr (Predictions bx lg None)).
Proof.
  destruct (built_head_inference_shapes (fun (_ : T3) (_ _ : nat) => inr tt) (fun (_ : nat) (_ : unit) (_ : list nat) => inr tt)
    (fun (_ : unit) => (1%nat, 1%nat)) (fun (s : unit) (_ : list nat) => inr s)
    (fun (_ _ : nat) => inr tt)
    (fun (_ _ : T4) (gb gc : nat) (_ _ : option unit) => inr (gb + gc)%nat)
              (example_head false false) 1 1 1%Z false [[[[3]]]]%R 1%nat 2%nat 3%nat
              [4%nat] None 1 1) as [bx [lg [E _]]].
  - unfold built_by, linear_dims. vm_compute. repeat split; repeat constructor.
  - reflexivity.
  - repeat constructor.
  - discriminate.
  - exists bx, lg. exact E.
Defined.

Lemma no_mask_branch_ignores_memory_witness :
  forward (fun (_ : T3) (_ _ : nat) => inr tt) (fun (_ : nat) (_ : unit) (_ : list nat) => inr tt)
    (fun (_ : unit) => (1%nat, 1%nat)) (fun (s : unit) (_ : list nat) => inr s)
    (fun (_ _ : nat) => inr tt)
    (fun (_ _ : T4) (gb gc : nat) (_ _ : option unit) => inr (gb + gc)%nat)
    (example_head true false) ([[[[3]]]]%R, 1%nat, 2%nat, 3%nat) [4%nat]
    (Some [("gt_bbox", 5%nat); ("gt_class", 6%nat)]) =
  forward (fun (_ : T3) (_ _ : nat) => inr tt) (fun (_ : nat) (_ : unit) (_ : list nat) => inr tt)
    (fun (_ : unit) => (1%nat, 1%nat)) (fun (s : unit) (_ : list nat) => inr s)
    (fun (_ _ : nat) => inr tt)
    (fun (_ _ : T4) (gb gc : nat) (_ _ : option unit) => inr (gb + gc)%nat)
    (example_head true false) ([[[[3]]]]%R, 7%nat, 8%nat, 9%nat) []
    (Some [("gt_bbox", 5%nat); ("gt_class", 6%nat)]).
Proof.
  exact (proj1 (no_mask_branch_ignores_memory (fun (_ : T3) (_ _ : nat) => inr tt) (fun (_ : nat) (_ : unit) (_ : list nat) => inr tt)
    (fun (_ : unit) => (1%nat, 1%nat)) (fun (s : unit) (_ : list nat) => inr s)
    (fun (_ _ : nat) => inr tt)
    (fun (_ _ : T4) (gb gc : nat) (_ _ : option unit) => inr (gb + gc)%nat)
                  (example_head true false) [[[[3]]]]%R 1%nat 7%nat 2%nat 8%nat 3%nat 9%nat
                  [4%nat] [] (Some [("gt_bbox", 5%nat); ("gt_class", 6%nat)]) eq_refl)).
Defined.

Lemma empty_decoder_stack_raises_witness :
  forward (fun (_ : T3) (_ _ : nat) => inr tt) (fun (_ : nat) (_ : unit) (_ : list nat) => inr tt)
    (fun (_ : unit) => (1%nat, 1%nat)) (fun (s : unit) (_ : list nat) => inr s)
    (fun (_ _ : nat) => inr tt)
    (fun (_ _ : T4) (gb gc : nat) (_ _ : option unit) => inr (gb + gc)%nat)
    (example_head false true) (@nil T3, 1%nat, 2%nat, 3%nat) [4%nat] None =
  ([EScoreHead; EBboxHead], inl IndexError).
Proof.
  apply (empty_decoder_stack_raises (fun (_ : T3) (_ _ : nat) => inr tt) (fun (_ : nat) (_ : unit) (_ : list nat) => inr tt)
    (fun (_ : unit) => (1%nat, 1%nat)) (fun (s : unit) (_ : list nat) => inr s)
    (fun (_ _ : nat) => inr tt)
    (fun (_ _ : T4) (gb gc : nat) (_ _ : option unit) => inr (gb + gc)%nat)
           (example_head false true) 1%nat 2%nat 3%nat [4%nat] None).
  left. reflexivity.
Defined.

Lemma score_head_width_mismatch_witness :
  forward (fun (_ : T3) (_ _ : nat) => inr tt) (fun (_ : nat) (_ : unit) (_ : list nat) => inr tt)
    (fun (_ : unit) => (1%nat, 1%nat)) (fun (s : unit) (_ : list nat) => inr s)
    (fun (_ _ : nat) => inr tt)
    (fun (_ _ : T4) (gb gc : nat) (_ _ : option unit) => inr (gb + gc)%nat)
    (example_head false false) ([[[[3; 4]]]]%R, 1%nat, 2%nat, 3%nat) [4%nat] None =
  ([EScoreHead], inl ShapeError).
Proof.
  apply (score_head_width_mismatch (fun (_ : T3) (_ _ : nat) => inr tt) (fun (_ : nat) (_ : unit) (_ : list nat) => inr tt)
    (fun (_ : unit) => (1%nat, 1%nat)) (fun (s : unit) (_ : list nat) => inr s)
    (fun (_ _ : nat) => inr tt)
    (fun (_ _ : T4) (gb gc : nat) (_ _ : option unit) => inr (gb + gc)%nat)
           (example_head false false) [[[[3; 4]]]]%R 1%nat 2%nat 3%nat [4%nat] None 1 1 2).
  - repeat constructor.
  - discriminate.
  - lia.
  - lia.
  - simpl. lia.
Defined.

Lemma training_gt_poly_without_pad_mask_witness :
  forward (fun (_ : T3) (_ _ : nat) => inr tt) (fun (_ : nat) (_ : unit) (_ : list nat) => inr tt)
    (fun (_ : unit) => (1%nat, 1%nat)) (fun (s : unit) (_ : list nat) => inr s)
    (fun (_ _ : nat) => inr tt)
    (fun (_ _ : T4) (gb gc : nat) (_ _ : option unit) => inr (gb + gc)%nat)
    (example_head true false) ([[[[3]]]]%R, 1%nat, 2%nat, 3%nat) [4%nat]
    (Some [("gt_bbox", 5%nat); ("gt_class", 6%nat); ("gt_poly", 7%nat)]) =
  ([EScoreHead; EBboxHead], inl (KeyError "pad_mask")).
Proof.
  refine (eq_trans (training_gt_poly_without_pad_mask (fun (_ : T3) (_ _ : nat) => inr tt) (fun (_ : nat) (_ : unit) (_ : list nat) => inr tt)
    (fun (_ : unit) => (1%nat, 1%nat)) (fun (s : unit) (_ : list nat) => inr s)
    (fun (_ _ : nat) => inr tt)
    (fun (_ _ : T4) (gb gc : nat) (_ _ : option unit) => inr (gb + gc)%nat)
             (example_head true false) [[[[3]]]]%R 1%nat 2%nat 3%nat [4%nat]
             [("gt_bbox", 5%nat); ("gt_class", 6%nat); ("gt_poly", 7%nat)]
             eq_refl eq_refl eq_refl eq_refl eq_refl) _).
  reflexivity.
Defined.

Lemma training_without_gt_poly_witness :
  forward (fun (_ : T3) (_ _ : nat) => inr tt) (fun (_ : nat) (_ : unit) (_ : list nat) => inr tt)
    (fun (_ : unit) => (1%nat, 1%nat)) (fun (s : unit) (_ : list nat) => inr s)
    (fun (_ _ : nat) => inr tt)
    (fun (_ _ : T4) (gb gc : nat) (_ _ : option unit) => inr (gb + gc)%nat)
    (example_head true false) ([[[[3]]]]%R, 1%nat, 2%nat, 3%nat) [4%nat]
    (Some [("gt_bbox", 5%nat); ("gt_class", 6%nat)]) =
  ([EScoreHead; EBboxHead; ELoss], inr (LossValue 11%nat)).
Proof.
  destruct (training_without_gt_poly (fun (_ : T3) (_ _ : nat) => inr tt) (fun (_ : nat) (_ : unit) (_ : list nat) => inr tt)
    (fun (_ : unit) => (1%nat, 1%nat)) (fun (s : unit) (_ : list nat) => inr s)
    (fun (_ _ : nat) => inr tt)
    (fun (_ _ : T4) (gb gc : nat) (_ _ : option unit) => inr (gb + gc)%nat)
              (example_head true false) [[[[3]]]]%R 1%nat 2%nat 3%nat [4%nat]
              [("gt_bbox", 5%nat); ("gt_class", 6%nat)] eq_refl eq_refl eq_refl eq_refl)
    as [gb [gc [Hb [Hc E]]]].
  injection Hb as <-. injection Hc as <-. refine (eq_trans E _). reflexivity.
Defined.

End DetrHeadMore.

(* ------------------------------------------------------------------ *)
Module GtMaskMore.
Import Py GtMask.

Lemma combine_firstn_both : forall A B (l1 : list A) (l2 : list B),
  combine l1 l2 = combine (firstn (length l2) l1) (firstn (length l1) l2).
Proof.
  intros A B l1. induction l1 as [|a l1 IH]; intros [|b l2]; try reflexivity.
  cbn. rewrite <- IH. reflexivity.
Qed.

Section More.
Context {Poly RLE : Type}.
Variable frPyObjects : Poly -> Z -> Z -> res (list RLE).
Variable merge : list RLE -> res RLE.
Variable decode : RLE -> res arr2.

(** [zip(gt_poly, pad_mask)] stops at the shorter list: the images of
    [gt_poly] beyond [len(pad_mask)], and those of [pad_mask] beyond
    [len(gt_poly)], are never read. *)
Theorem gt_mask_zip_truncates : forall (gt_poly : list (list Poly)) pad_mask,
  get_gt_mask_from_polygons frPyObjects merge decode gt_poly pad_mask =
  get_gt_mask_from_polygons frPyObjects merge decode
    (firstn (length pad_mask) gt_poly) (firstn (length gt_poly) pad_mask).
Proof.
  intros gt_poly pad_mask. unfold get_gt_mask_from_polygons.
  destruct gt_poly as [|g gp], pad_mask as [|p pm]; try reflexivity.
  cbn [firstn length pad_shape combine].
  rewrite <- (combine_firstn_both _ _ gp pm). reflexivity.
Qed.

(** A [pad_mask] of height 0 or width 0 makes the first image raise
    [IndexError] (at [padding[0, :]] or at [padding[:, 0]]), before any
    polygon is rasterised. *)
Theorem gt_mask_degenerate_padding :
  forall (g : list Poly) (gp : list (list Poly)) p pm Hp Wp,
  padding_ok Hp Wp p -> (Hp = 0 \/ Wp = 0)%nat ->
  get_gt_mask_from_polygons frPyObjects merge decode (g :: gp) (p :: pm) = inl IndexError.
Proof.
  intros g gp p pm Hp Wp [Hl Hrows] H0.
  unfold get_gt_mask_from_polygons.
  assert (E : forall Hp' Wp', image_mask frPyObjects merge decode Hp' Wp' g p = inl IndexError).
  { intros Hp' Wp'. unfold image_mask. destruct p as [|row p].
    - reflexivity.
    - destruct H0 as [H0|H0]; [cbn in Hl; lia|].
      destruct (Forall_inv Hrows) as [Hrow _].
      destruct row as [|v row]; [reflexivity | cbn in Hrow; lia]. }
  destruct (pad_shape (p :: pm)) as [Hp' Wp']. cbn. rewrite E. reflexivity.
Qed.

End More.

Lemma gt_mask_degenerate_padding_witness :
  get_gt_mask_from_polygons full_frPyObjects first_merge full_decode
    [[tt]] [[[]; []]] = inl IndexError.
Proof.
  apply (gt_mask_degenerate_padding full_frPyObjects first_merge full_decode
           [tt] [] [[]; []] [] 2 0).
  - split; [reflexivity | repeat constructor].
  - right. reflexivity.
Defined.

End GtMaskMore.
